(** * INA260 current/voltage/power sensor driver (INA260.h, INA260.cpp)

    A shallow embedding of the Arduino driver class [INA260] and of the
    properties of its register accessors.

    - The two-wire bus library ([Wire]) is not part of the driver; it is an
      interface ([WireBus]) and every theorem about the driver holds for
      every implementation of it.  A simulated device ([Sim]) is one
      implementation, used to run the driver on concrete inputs.
    - The driver is written in a state-and-trace monad: a method takes the
      state (the [INA260] object, the function-static flag of [begin] and
      the bus) and returns its result, the new state and the list of bus
      calls it made.
    - Integer and floating-point arithmetic follow the C++ rules of the
      compilation target ([Target]): the width of [int] decides how
      [uint16_t * int] is evaluated, and [double] is binary32 on AVR and
      binary64 elsewhere.  Floating-point values are those of
      [SpecFloat] (IEEE 754 with round to nearest even). *)

From Stdlib Require Import ZArith Lia List Bool String Ascii QArith Qround.
From Stdlib Require Import Sorted.
From Stdlib Require Import SpecFloat.
Import ListNotations.
Local Open Scope Z_scope.

(** ** Compilation targets *)

(** The Arduino targets differ in two ways that the driver's arithmetic
    depends on.  On the 8-bit AVR boards [int] has 16 bits and [double] is
    the 32-bit format; on the 32-bit boards [int] has 32 bits and [double]
    is the 64-bit format. *)
Inductive Target : Type := AVR8 | ILP32.

Definition int_bits (T : Target) : Z :=
  match T with AVR8 => 16 | ILP32 => 32 end.

Definition double_prec (T : Target) : Z :=
  match T with AVR8 => 24 | ILP32 => 53 end.

Definition double_emax (T : Target) : Z :=
  match T with AVR8 => 128 | ILP32 => 1024 end.

Definition float_prec : Z := 24.
Definition float_emax : Z := 128.

(** ** Fixed-width integers *)

Definition u8 (z : Z) : Z := z mod 256.
Definition u16 (z : Z) : Z := z mod 65536.

(** The value of an arithmetic expression over [uint16_t] and [int]
    operands whose mathematical result is [z].  Where [int] is wider than 16
    bits the operands are promoted to [int] and the result is [z] (the
    driver's expressions stay below 2^24, far from the overflow of a 32-bit
    [int]); where [int] has 16 bits, [uint16_t] is [unsigned int], the
    expression is evaluated in [unsigned int] and wraps modulo 2^16. *)
Definition arith16 (T : Target) (z : Z) : Z :=
  if int_bits T =? 16 then z mod 65536 else z.

(** Enumeration of all [n]-bit extensions of [base], used to decide a
    property of every 16-bit value by evaluation. *)
Fixpoint all_bits (n : nat) (base : Z) (f : Z -> bool) : bool :=
  match n with
  | O => f base
  | S k => all_bits k (2 * base) f && all_bits k (2 * base + 1) f
  end.

Definition all_u16 (f : Z -> bool) : bool := all_bits 16 0 f.

(** ** Floating point *)

(** Conversion of an integer to a floating-point format. *)
Definition fp_of_int (prec emax : Z) (z : Z) : spec_float :=
  binary_normalize prec emax z 0 false.

(** The literal [1.25], which is 5 * 2^-2. *)
Definition fp_1_25 (prec emax : Z) : spec_float :=
  binary_normalize prec emax 5 (-2) false.

(** Conversion between floating-point formats (rounding to the target). *)
Definition fp_convert (prec emax : Z) (x : spec_float) : spec_float :=
  match x with
  | S754_finite s m e =>
      binary_normalize prec emax (cond_Zopp s (Zpos m)) e s
  | _ => x
  end.

(** Conversion of a floating-point value to an integer: the fractional part
    is discarded.  (For infinities and NaN the C++ conversion is undefined;
    the driver never converts one.) *)
Definition fp_trunc (x : spec_float) : Z :=
  match x with
  | S754_finite s m e =>
      cond_Zopp s (match e with
                   | Zneg p => Z.shiftr (Zpos m) (Zpos p)
                   | _ => Z.shiftl (Zpos m) e
                   end)
  | _ => 0
  end.

(** The rational number a finite floating-point value denotes. *)
Definition SF2Q (x : spec_float) : option Q :=
  match x with
  | S754_zero _ => Some 0%Q
  | S754_finite s m e =>
      Some (inject_Z (cond_Zopp s (Zpos m)) * Qpower 2 e)%Q
  | _ => None
  end.

(** [SFis x q]: [x] is finite and denotes exactly [q]. *)
Definition SFis (x : spec_float) (q : Q) : bool :=
  match SF2Q x with
  | Some v => Qeq_bool v q
  | None => false
  end.

Definition SFvalue (x : spec_float) (q : Q) : Prop :=
  exists v, SF2Q x = Some v /\ (v == q)%Q.

(** [uint16_t * 1.25] in [double]. *)
Definition mul_1_25 (T : Target) (raw : Z) : spec_float :=
  SFmul (double_prec T) (double_emax T)
        (fp_of_int (double_prec T) (double_emax T) raw)
        (fp_1_25 (double_prec T) (double_emax T)).

(** [uint16_t * 10], an integer expression. *)
Definition mul_10 (T : Target) (raw : Z) : Z := arith16 T (raw * 10).

(** [uint16_t / 1.25] in [double], converted to [uint16_t]. *)
Definition div_1_25 (T : Target) (x : Z) : Z :=
  u16 (fp_trunc (SFdiv (double_prec T) (double_emax T)
                       (fp_of_int (double_prec T) (double_emax T) x)
                       (fp_1_25 (double_prec T) (double_emax T)))).

(** [uint16_t / 10], an integer expression converted to [uint16_t]. *)
Definition div_10 (T : Target) (x : Z) : Z := u16 (arith16 T (x / 10)).

(** An integer expression returned as [float]. *)
Definition int_as_float (z : Z) : spec_float :=
  fp_of_int float_prec float_emax z.

(** A [double] expression returned as [float]. *)
Definition double_as_float (x : spec_float) : spec_float :=
  fp_convert float_prec float_emax x.

(** An integer expression assigned to a [double]. *)
Definition int_as_double (T : Target) (z : Z) : spec_float :=
  fp_of_int (double_prec T) (double_emax T) z.

(** ** Registers (INA260.h) *)

Definition INA260_I2CADDR_DEFAULT : Z := 0x40.
Definition INA260_CONFIG_REGISTER : Z := 0x00.
Definition INA260_CURRENT_REGISTER : Z := 0x01.
Definition INA260_VOLTAGE_REGISTER : Z := 0x02.
Definition INA260_POWER_REGISTER : Z := 0x03.
Definition INA260_MASK_ENABLE_REGISTER : Z := 0x06.
Definition INA260_ALERT_LIMIT_REGISTER : Z := 0x07.
Definition INA260_MANUFACTURER_ID_REGISTER : Z := 0xFE.
Definition INA260_DIE_ID_REGISTER : Z := 0xFF.

(** A bit-field of a 16-bit register: [f_width] bits starting at bit
    [f_off].  The unions of INA260.h overlay a packed struct of bit-fields
    on [rawValue]; the fields are allocated from the least significant bit,
    which is the layout of the chip's registers. *)
Record Field : Type := mkField { f_off : Z; f_width : Z }.

(** Reading a bit-field of the union whose [rawValue] is [raw]. *)
Definition get_field (f : Field) (raw : Z) : Z :=
  Z.land (Z.shiftr raw (f_off f)) (Z.ones (f_width f)).

(** Assigning [v] to a bit-field: [v] is truncated to the width of the
    field, the other bits of [rawValue] are kept. *)
Definition set_field (f : Field) (v : Z) (raw : Z) : Z :=
  Z.lor (Z.ldiff raw (Z.shiftl (Z.ones (f_width f)) (f_off f)))
        (Z.shiftl (Z.land v (Z.ones (f_width f))) (f_off f)).

(** Conversion of a bit-field to [bool], and of a [bool] to an integer. *)
Definition field_flag (f : Field) (raw : Z) : bool :=
  negb (get_field f raw =? 0).

Definition Z_of_bool (b : bool) : Z := if b then 1 else 0.

Module ConfigurationRegister.
Definition mode : Field := mkField 0 3.
Definition ishct : Field := mkField 3 3.
Definition vbusct : Field := mkField 6 3.
Definition avg : Field := mkField 9 3.
Definition rst : Field := mkField 15 1.
Definition fields : list Field := [mode; ishct; vbusct; avg; rst].
End ConfigurationRegister.

Module MaskEnableRegister.
Definition len : Field := mkField 0 1.
Definition apol : Field := mkField 1 1.
Definition ovf : Field := mkField 2 1.
Definition cvrf : Field := mkField 3 1.
Definition aff : Field := mkField 4 1.
Definition cnvr : Field := mkField 10 1.
Definition pol : Field := mkField 11 1.
Definition bul : Field := mkField 12 1.
Definition bol : Field := mkField 13 1.
Definition ucl : Field := mkField 14 1.
Definition ocl : Field := mkField 15 1.
Definition fields : list Field :=
  [len; apol; ovf; cvrf; aff; cnvr; pol; bul; bol; ucl; ocl].
(** The five flags that select which limit raises the alert. *)
Definition limit_flags : list Field := [ocl; ucl; bol; bul; pol].
End MaskEnableRegister.

Module DieIdRegister.
Definition rid : Field := mkField 0 4.
Definition did : Field := mkField 4 12.
End DieIdRegister.

(** ** Enumerations (INA260.h) *)

Inductive Mode : Type :=
  | MODE_TRIG_POWER_DOWN | MODE_TRIG_ISH | MODE_TRIG_VBUS | MODE_TRIG_ISH_VBUS
  | MODE_CONT_POWER_DOWN | MODE_CONT_ISH | MODE_CONT_VBUS | MODE_CONT_ISH_VBUS.

Definition Mode_to_Z (m : Mode) : Z :=
  match m with
  | MODE_TRIG_POWER_DOWN => 0 | MODE_TRIG_ISH => 1
  | MODE_TRIG_VBUS => 2 | MODE_TRIG_ISH_VBUS => 3
  | MODE_CONT_POWER_DOWN => 4 | MODE_CONT_ISH => 5
  | MODE_CONT_VBUS => 6 | MODE_CONT_ISH_VBUS => 7
  end.

(** The cast [(Mode)reg.mode] of a three-bit field. *)
Definition Mode_of_Z (z : Z) : Mode :=
  match z with
  | 0 => MODE_TRIG_POWER_DOWN | 1 => MODE_TRIG_ISH
  | 2 => MODE_TRIG_VBUS | 3 => MODE_TRIG_ISH_VBUS
  | 4 => MODE_CONT_POWER_DOWN | 5 => MODE_CONT_ISH
  | 6 => MODE_CONT_VBUS | _ => MODE_CONT_ISH_VBUS
  end.

Inductive AveragingCount : Type :=
  | AVG_1 | AVG_4 | AVG_16 | AVG_64 | AVG_128 | AVG_256 | AVG_512 | AVG_1024.

Definition AveragingCount_to_Z (c : AveragingCount) : Z :=
  match c with
  | AVG_1 => 0 | AVG_4 => 1 | AVG_16 => 2 | AVG_64 => 3
  | AVG_128 => 4 | AVG_256 => 5 | AVG_512 => 6 | AVG_1024 => 7
  end.

Definition AveragingCount_of_Z (z : Z) : AveragingCount :=
  match z with
  | 0 => AVG_1 | 1 => AVG_4 | 2 => AVG_16 | 3 => AVG_64
  | 4 => AVG_128 | 5 => AVG_256 | 6 => AVG_512 | _ => AVG_1024
  end.

Inductive ConversionTime : Type :=
  | TIME_140_us | TIME_204_us | TIME_332_us | TIME_558_us
  | TIME_1_1_ms | TIME_2_116_ms | TIME_4_156_ms | TIME_8_244_ms.

Definition ConversionTime_to_Z (t : ConversionTime) : Z :=
  match t with
  | TIME_140_us => 0 | TIME_204_us => 1 | TIME_332_us => 2 | TIME_558_us => 3
  | TIME_1_1_ms => 4 | TIME_2_116_ms => 5 | TIME_4_156_ms => 6
  | TIME_8_244_ms => 7
  end.

Definition ConversionTime_of_Z (z : Z) : ConversionTime :=
  match z with
  | 0 => TIME_140_us | 1 => TIME_204_us | 2 => TIME_332_us | 3 => TIME_558_us
  | 4 => TIME_1_1_ms | 5 => TIME_2_116_ms | 6 => TIME_4_156_ms
  | _ => TIME_8_244_ms
  end.

(** ** The two-wire bus (Wire.h) *)

(** The calls of the bus library the driver uses.  [W] is the state of the
    bus and of whatever is connected to it.  [Wire_endTransmission] returns
    the status byte (0 when the addressed device acknowledged),
    [Wire_available] the number of received bytes not yet read and
    [Wire_read] the next received byte. *)
Class WireBus (W : Type) : Type := {
  Wire_begin : W -> W;
  Wire_beginTransmission : Z -> W -> W;
  Wire_write : Z -> W -> W;
  Wire_endTransmission : W -> Z * W;
  Wire_requestFrom : Z -> Z -> W -> W;
  Wire_available : W -> Z;
  Wire_read : W -> Z * W
}.

(** The bus calls a method makes, in order. *)
Inductive Event : Type :=
  | EvBegin
  | EvBeginTransmission (a : Z)
  | EvWrite (b : Z)
  | EvEndTransmission
  | EvRequestFrom (a n : Z)
  | EvAvailable
  | EvRead.

(** A transfer on the bus, from start to stop condition: a write of
    [bytes] to the device at [addr] (one [beginTransmission] ...
    [endTransmission]), or a request of [n] bytes from it. *)
Inductive Txn : Type :=
  | TxWrite (addr : Z) (bytes : list Z)
  | TxRead (addr : Z) (n : Z).

Fixpoint txns_from (open : option (Z * list Z)) (evs : list Event)
  : list Txn :=
  match evs with
  | [] => []
  | EvBeginTransmission a :: r => txns_from (Some (a, [])) r
  | EvWrite b :: r =>
      txns_from (match open with
                 | Some (a, bs) => Some (a, bs ++ [b])
                 | None => None
                 end) r
  | EvEndTransmission :: r =>
      match open with
      | Some (a, bs) => TxWrite a bs :: txns_from None r
      | None => txns_from None r
      end
  | EvRequestFrom a n :: r => TxRead a n :: txns_from open r
  | _ :: r => txns_from open r
  end.

(** The transmission left open by a trace: the address and the bytes queued
since the last [beginTransmission] that no [endTransmission] has sent. *)
Fixpoint open_after (open : option (Z * list Z)) (evs : list Event)
  : option (Z * list Z) :=
  match evs with
  | [] => open
  | EvBeginTransmission a :: r => open_after (Some (a, [])) r
  | EvWrite b :: r =>
      open_after (match open with
                  | Some (a, bs) => Some (a, bs ++ [b])
                  | None => None
                  end) r
  | EvEndTransmission :: r => open_after None r
  | _ :: r => open_after open r
  end.

Definition transactions (evs : list Event) : list Txn := txns_from None evs.

(** A register read ends in a two-byte request; a register write is a write
    transfer of three bytes (register, high byte, low byte). *)
Definition is_reg_read (t : Txn) : bool :=
  match t with TxRead _ _ => true | _ => false end.

Definition is_reg_write (t : Txn) : bool :=
  match t with TxWrite _ [_; _; _] => true | _ => false end.

Definition reg_reads (evs : list Event) : nat :=
  List.length (filter is_reg_read (transactions evs)).

Definition reg_writes (evs : list Event) : nat :=
  List.length (filter is_reg_write (transactions evs)).

(** The register writes of a trace: device address, register and the 16-bit
    value the two data bytes carry, in order. *)
Fixpoint written_of (ts : list Txn) : list (Z * Z * Z) :=
  match ts with
  | [] => []
  | TxWrite a [r; hi; lo] :: rest => (a, r, hi * 256 + lo) :: written_of rest
  | _ :: rest => written_of rest
  end.

Definition written (evs : list Event) : list (Z * Z * Z) :=
  written_of (transactions evs).

(** The addresses a trace starts a transmission to, in order. *)
Fixpoint probed (evs : list Event) : list Z :=
  match evs with
  | [] => []
  | EvBeginTransmission a :: r => a :: probed r
  | _ :: r => probed r
  end.

(** ** The driver object and its state *)

(** The data members of class [INA260]. *)
Record INA260 : Type := mkINA260 {
  address : Z;          (* uint8_t address *)
  devices : list Z;     (* byte devices[16] *)
  deviceCount : Z       (* int deviceCount *)
}.

(** The constructor [INA260::INA260(void) {}] has an empty body and no
    member initialisers: the members keep what their storage holds. *)
Definition INA260_new (storage : INA260) : INA260 := storage.

(** The state a method runs in: the object, the function-static
    [wireInitialized] of [begin], and the bus. *)
Record State (W : Type) : Type := mkState {
  obj : INA260;
  wireInitialized : bool;
  wire : W
}.
Arguments mkState {W} _ _ _.
Arguments obj {W} _.
Arguments wireInitialized {W} _.
Arguments wire {W} _.

(** What a method returns: its value, the state after it and the bus calls
    it made. *)
Record Out (W A : Type) : Type := mkOut {
  value : A;
  after : State W;
  events : list Event
}.
Arguments mkOut {W A} _ _ _.
Arguments value {W A} _.
Arguments after {W A} _.
Arguments events {W A} _.

Definition M (W A : Type) : Type := State W -> Out W A.

Definition ret {W A : Type} (a : A) : M W A := fun s => mkOut a s [].

Definition bind {W A B : Type} (m : M W A) (k : A -> M W B) : M W B :=
  fun s =>
    let r1 := m s in
    let r2 := k (value r1) (after r1) in
    mkOut (value r2) (after r2) (events r1 ++ events r2).

Declare Scope ina_scope.
Delimit Scope ina_scope with ina.
Notation "x <- c1 ;; c2" := (bind c1 (fun x => c2))
  (at level 61, c1 at next level, right associativity) : ina_scope.
Notation "c1 ;; c2" := (bind c1 (fun _ => c2))
  (at level 61, right associativity) : ina_scope.

Definition set_wire {W : Type} (w : W) (s : State W) : State W :=
  mkState (obj s) (wireInitialized s) w.

Definition set_obj {W : Type} (o : INA260) (s : State W) : State W :=
  mkState o (wireInitialized s) (wire s).

(** The result of storing [v] at index [i] of a 16-element array: [None]
    when the index is outside the array (the C++ store is then undefined). *)
Fixpoint list_set (n : nat) (v : Z) (l : list Z) : list Z :=
  match l, n with
  | [], _ => []
  | _ :: t, O => v :: t
  | h :: t, S k => h :: list_set k v t
  end.

Definition array16_store (i v : Z) (l : list Z) : option (list Z) :=
  if (0 <=? i) && (i <? 16) then Some (list_set (Z.to_nat i) v l) else None.

(** How a loop of the driver ends. *)
Inductive Run (A : Type) : Type :=
  | Returned (a : A)
  | Undefined        (* a store outside [devices] *)
  | Exhausted.       (* the fuel of the model ran out *)
Arguments Returned {A} _.
Arguments Undefined {A}.
Arguments Exhausted {A}.

(** The values the public methods return. *)
Inductive Ret : Type :=
  | RVoid
  | RBool (b : bool)
  | RU8 (z : Z)
  | RU16 (z : Z)
  | RFloat (x : spec_float)
  | RDouble (x : spec_float)
  | RConfig (rawValue : Z)
  | RMaskEnable (rawValue : Z)
  | RDieId (rawValue : Z)
  | RMode (m : Mode)
  | RConversionTime (t : ConversionTime)
  | RAveragingCount (c : AveragingCount)
  | RString (str : string).

(** The [String] built from a NUL-terminated array of [char]. *)
Fixpoint c_string (bytes : list Z) : string :=
  match bytes with
  | [] => EmptyString
  | b :: r =>
      if b =? 0 then EmptyString
      else String (ascii_of_N (Z.to_N b)) (c_string r)
  end.

(** ** The methods of the driver (INA260.cpp) *)

Section Driver.
Context {W : Type} {bus : WireBus W}.
Variable T : Target.
Local Open Scope ina_scope.

(** *** Bus calls, recorded in the trace *)

Definition beginTransmission (a : Z) : M W unit := fun s =>
  mkOut tt (set_wire (Wire_beginTransmission a (wire s)) s)
        [EvBeginTransmission a].

Definition write (b : Z) : M W unit := fun s =>
  mkOut tt (set_wire (Wire_write b (wire s)) s) [EvWrite b].

Definition endTransmission : M W Z := fun s =>
  mkOut (fst (Wire_endTransmission (wire s)))
        (set_wire (snd (Wire_endTransmission (wire s))) s)
        [EvEndTransmission].

Definition requestFrom (a n : Z) : M W unit := fun s =>
  mkOut tt (set_wire (Wire_requestFrom a n (wire s)) s) [EvRequestFrom a n].

Definition available : M W Z := fun s =>
  mkOut (Wire_available (wire s)) s [EvAvailable].

Definition read : M W Z := fun s =>
  mkOut (fst (Wire_read (wire s))) (set_wire (snd (Wire_read (wire s))) s)
        [EvRead].

Definition this_address : M W Z := fun s => mkOut (address (obj s)) s [].

(** *** Address *)

Definition setAddress (addr : Z) : M W unit := fun s =>
  mkOut tt (set_obj (mkINA260 (u8 addr) (devices (obj s))
                              (deviceCount (obj s))) s) [].

Definition getAddress : M W Z := this_address.

(** *** Raw register access *)

Definition readRegister (reg : Z) : M W Z :=
  a <- this_address ;;
  beginTransmission a ;;
  write reg ;;
  _ <- endTransmission ;;
  requestFrom a 2 ;;
  n <- available ;;
  if n =? 2 then
    msb <- read ;;
    lsb <- read ;;
    ret (u16 (arith16 T (Z.lor (arith16 T (Z.shiftl (u16 msb) 8))
                               (u16 lsb))))
  else ret 0.

Definition writeRegister (reg value : Z) : M W bool :=
  a <- this_address ;;
  beginTransmission a ;;
  write reg ;;
  write (Z.land (Z.shiftr value 8) 0xFF) ;;
  write (Z.land value 0xFF) ;;
  st <- endTransmission ;;
  ret (st =? 0).

(** *** Configuration register *)

Definition readConfigurationRegister : M W Z :=
  readRegister INA260_CONFIG_REGISTER.

Definition writeConfigurationRegister (rawValue : Z) : M W bool :=
  writeRegister INA260_CONFIG_REGISTER rawValue.

Definition reset : M W bool :=
  writeConfigurationRegister (set_field ConfigurationRegister.rst 1 0).

(** The first statement of [begin]: [Wire.begin()] is called once, guarded
    by the function-static flag. *)
Definition wire_init_once : M W unit := fun s =>
  if wireInitialized s then mkOut tt s []
  else mkOut tt (mkState (obj s) true (Wire_begin (wire s))) [EvBegin].

Definition begin : M W bool :=
  wire_init_once ;;
  reset ;;
  (fun s => mkOut (wireInitialized s) s []).

(** *** Measurements *)

Definition readCurrent : M W spec_float :=
  raw <- readRegister INA260_CURRENT_REGISTER ;;
  ret (double_as_float (mul_1_25 T raw)).

Definition readBusVoltage : M W spec_float :=
  raw <- readRegister INA260_VOLTAGE_REGISTER ;;
  ret (double_as_float (mul_1_25 T raw)).

Definition readPower : M W spec_float :=
  raw <- readRegister INA260_POWER_REGISTER ;;
  ret (int_as_float (mul_10 T raw)).

(** *** Mask/Enable and alert limit registers *)

Definition readMaskEnableRegister : M W Z :=
  readRegister INA260_MASK_ENABLE_REGISTER.

Definition writeMaskEnableRegister (rawValue : Z) : M W bool :=
  writeRegister INA260_MASK_ENABLE_REGISTER rawValue.

Definition readAlertLimitRegister : M W spec_float :=
  reg <- readMaskEnableRegister ;;
  if get_field MaskEnableRegister.pol reg =? 1 then
    raw <- readRegister INA260_ALERT_LIMIT_REGISTER ;;
    ret (int_as_double T (mul_10 T raw))
  else
    raw <- readRegister INA260_ALERT_LIMIT_REGISTER ;;
    ret (mul_1_25 T raw).

Definition writeAlertLimitRegister (value : Z) : M W bool :=
  writeRegister INA260_ALERT_LIMIT_REGISTER value.

Definition setCurrentLimit (milliAmps : Z) : M W bool :=
  writeAlertLimitRegister (div_1_25 T milliAmps).

Definition setBusVoltageLimit (milliVolts : Z) : M W bool :=
  writeAlertLimitRegister (div_1_25 T milliVolts).

Definition setPowerLimit (milliWatts : Z) : M W bool :=
  writeAlertLimitRegister (div_10 T milliWatts).

(** The five assignments to the limit flags, in the order of the source:
    [ocl], [ucl], [bol], [bul], [pol]. *)
Definition select_limit (ocl ucl bol bul pol : Z) (reg : Z) : Z :=
  set_field MaskEnableRegister.pol pol
    (set_field MaskEnableRegister.bul bul
       (set_field MaskEnableRegister.bol bol
          (set_field MaskEnableRegister.ucl ucl
             (set_field MaskEnableRegister.ocl ocl reg)))).

Definition enableOverCurrentLimitAlert (milliAmps : Z) : M W bool :=
  reg <- readMaskEnableRegister ;;
  setCurrentLimit milliAmps ;;
  writeMaskEnableRegister (select_limit 1 0 0 0 0 reg).

Definition enableUnderCurrentLimitAlert (milliAmps : Z) : M W bool :=
  reg <- readMaskEnableRegister ;;
  setCurrentLimit milliAmps ;;
  writeMaskEnableRegister (select_limit 0 1 0 0 0 reg).

Definition enableBusOvertLimitAlert (milliVolts : Z) : M W bool :=
  reg <- readMaskEnableRegister ;;
  setBusVoltageLimit milliVolts ;;
  writeMaskEnableRegister (select_limit 0 0 1 0 0 reg).

Definition enableBusUnderLimitAlert (milliVolts : Z) : M W bool :=
  reg <- readMaskEnableRegister ;;
  setBusVoltageLimit milliVolts ;;
  writeMaskEnableRegister (select_limit 0 0 0 1 0 reg).

Definition enableOverPowerLimitAlert (milliWatts : Z) : M W bool :=
  reg <- readMaskEnableRegister ;;
  setPowerLimit milliWatts ;;
  writeMaskEnableRegister (select_limit 0 0 0 0 1 reg).

(** *** Flags of the Mask/Enable register *)

Definition isMathOverFlow : M W bool :=
  reg <- readMaskEnableRegister ;;
  ret (field_flag MaskEnableRegister.ovf reg).

Definition isAlert : M W bool :=
  reg <- readMaskEnableRegister ;;
  ret (field_flag MaskEnableRegister.aff reg).

Definition clearAlert : M W unit :=
  readMaskEnableRegister ;; ret tt.

Definition isAlertPolaritySet : M W bool :=
  reg <- readMaskEnableRegister ;;
  ret (field_flag MaskEnableRegister.apol reg).

Definition setAlertPolarity (polarity : bool) : M W bool :=
  reg <- readMaskEnableRegister ;;
  writeMaskEnableRegister
    (set_field MaskEnableRegister.apol (Z_of_bool polarity) reg).

Definition isAlertLatchSet : M W bool :=
  reg <- readMaskEnableRegister ;;
  ret (field_flag MaskEnableRegister.len reg).

Definition setAlertLatch (latch : bool) : M W bool :=
  reg <- readMaskEnableRegister ;;
  writeMaskEnableRegister
    (set_field MaskEnableRegister.len (Z_of_bool latch) reg).

Definition isConversionRready : M W bool :=
  reg <- readMaskEnableRegister ;;
  ret (field_flag MaskEnableRegister.cvrf reg).

Definition setConversionReadyAlert (state : bool) : M W bool :=
  reg <- readMaskEnableRegister ;;
  writeMaskEnableRegister
    (set_field MaskEnableRegister.cnvr (Z_of_bool state) reg).

(** *** Fields of the configuration register *)

Definition getMode : M W Mode :=
  reg <- readConfigurationRegister ;;
  ret (Mode_of_Z (get_field ConfigurationRegister.mode reg)).

Definition setMode (mode : Mode) : M W unit :=
  reg <- readConfigurationRegister ;;
  writeConfigurationRegister
    (set_field ConfigurationRegister.mode (Mode_to_Z mode) reg) ;;
  ret tt.

Definition getCurrentConversionTime : M W ConversionTime :=
  reg <- readConfigurationRegister ;;
  ret (ConversionTime_of_Z (get_field ConfigurationRegister.ishct reg)).

Definition setCurrentConversionTime (time : ConversionTime) : M W bool :=
  reg <- readConfigurationRegister ;;
  writeConfigurationRegister
    (set_field ConfigurationRegister.ishct (ConversionTime_to_Z time) reg).

Definition getVoltageConversionTime : M W ConversionTime :=
  reg <- readConfigurationRegister ;;
  ret (ConversionTime_of_Z (get_field ConfigurationRegister.vbusct reg)).

Definition setVoltageConversionTime (time : ConversionTime) : M W bool :=
  reg <- readConfigurationRegister ;;
  writeConfigurationRegister
    (set_field ConfigurationRegister.vbusct (ConversionTime_to_Z time) reg).

Definition getAveragingCount : M W AveragingCount :=
  reg <- readConfigurationRegister ;;
  ret (AveragingCount_of_Z (get_field ConfigurationRegister.avg reg)).

Definition setAveragingCount (count : AveragingCount) : M W bool :=
  reg <- readConfigurationRegister ;;
  writeConfigurationRegister
    (set_field ConfigurationRegister.avg (AveragingCount_to_Z count) reg).

(** *** Identification *)

Definition readManufactuerId : M W string :=
  v <- readRegister INA260_MANUFACTURER_ID_REGISTER ;;
  ret (c_string [Z.land (Z.shiftr v 8) 0xFF; Z.land v 0xFF; 0]).

Definition readDieId : M W Z :=
  readRegister INA260_DIE_ID_REGISTER.

(** *** Device discovery *)

(** One pass of the loop body for [address = a]: an empty transmission,
    and when it is acknowledged the store [devices[deviceCount] = a]
    followed by [deviceCount++]. *)
Definition probe (a : Z) : M W bool :=
  beginTransmission a ;;
  st <- endTransmission ;;
  ret (st =? 0).

Definition record_device (a : Z) (o : INA260) : option INA260 :=
  match array16_store (deviceCount o) a (devices o) with
  | Some d => Some (mkINA260 (address o) d (deviceCount o + 1))
  | None => None
  end.

(** The loop [for (byte address = a; address < 127; address++)]. *)
Fixpoint findDevices_from (fuel : nat) (a : Z) (s : State W)
  : Run (State W) * list Event :=
  match fuel with
  | O => (Exhausted, [])
  | S fuel' =>
      if a <? 127 then
        let r := probe a s in
        if value r then
          match record_device a (obj (after r)) with
          | Some o =>
              let k := findDevices_from fuel' (u8 (a + 1))
                                        (set_obj o (after r)) in
              (fst k, events r ++ snd k)
          | None => (Undefined, events r)
          end
        else
          let k := findDevices_from fuel' (u8 (a + 1)) (after r) in
          (fst k, events r ++ snd k)
      else (Returned s, [])
  end.

Definition findDevices (s : State W) : Run (State W) * list Event :=
  findDevices_from 256 1 s.

(** The addresses in [a, 127) that acknowledge an empty transmission when
    probed in turn, and the bus after the probes: what the scan of
    [findDevices] sees, independently of the object. *)
Fixpoint bus_scan (n : nat) (a : Z) (w : W) : list Z * W :=
  match n with
  | O => ([], w)
  | S n' =>
      let r := Wire_endTransmission (Wire_beginTransmission a w) in
      let k := bus_scan n' (a + 1) (snd r) in
      (if fst r =? 0 then a :: fst k else fst k, snd k)
  end.

(** *** The public methods as one type *)

Inductive Op : Type :=
  | OpBegin | OpReset
  | OpSetAddress (addr : Z) | OpGetAddress
  | OpReadRegister (reg : Z) | OpWriteRegister (reg value : Z)
  | OpReadConfigurationRegister | OpWriteConfigurationRegister (v : Z)
  | OpReadCurrent | OpReadBusVoltage | OpReadPower
  | OpReadMaskEnableRegister | OpWriteMaskEnableRegister (v : Z)
  | OpReadAlertLimitRegister | OpWriteAlertLimitRegister (v : Z)
  | OpEnableOverCurrentLimitAlert (milliAmps : Z)
  | OpEnableUnderCurrentLimitAlert (milliAmps : Z)
  | OpEnableBusOvertLimitAlert (milliVolts : Z)
  | OpEnableBusUnderLimitAlert (milliVolts : Z)
  | OpEnableOverPowerLimitAlert (milliWatts : Z)
  | OpSetCurrentLimit (milliAmps : Z)
  | OpSetBusVoltageLimit (milliVolts : Z)
  | OpSetPowerLimit (milliWatts : Z)
  | OpIsMathOverFlow | OpIsAlert | OpClearAlert
  | OpIsAlertPolaritySet | OpSetAlertPolarity (polarity : bool)
  | OpIsAlertLatchSet | OpSetAlertLatch (latch : bool)
  | OpGetMode | OpSetMode (mode : Mode)
  | OpIsConversionRready | OpSetConversionReadyAlert (state : bool)
  | OpGetCurrentConversionTime
  | OpSetCurrentConversionTime (time : ConversionTime)
  | OpGetVoltageConversionTime
  | OpSetVoltageConversionTime (time : ConversionTime)
  | OpGetAveragingCount | OpSetAveragingCount (count : AveragingCount)
  | OpReadManufactuerId | OpReadDieId.

Definition as_ret {A : Type} (f : A -> Ret) (m : M W A) : M W Ret :=
  x <- m ;; ret (f x).

Definition exec (op : Op) : M W Ret :=
  match op with
  | OpBegin => as_ret RBool begin
  | OpReset => as_ret RBool reset
  | OpSetAddress a => as_ret (fun _ => RVoid) (setAddress a)
  | OpGetAddress => as_ret RU8 getAddress
  | OpReadRegister r => as_ret RU16 (readRegister r)
  | OpWriteRegister r v => as_ret RBool (writeRegister r v)
  | OpReadConfigurationRegister => as_ret RConfig readConfigurationRegister
  | OpWriteConfigurationRegister v =>
      as_ret RBool (writeConfigurationRegister v)
  | OpReadCurrent => as_ret RFloat readCurrent
  | OpReadBusVoltage => as_ret RFloat readBusVoltage
  | OpReadPower => as_ret RFloat readPower
  | OpReadMaskEnableRegister => as_ret RMaskEnable readMaskEnableRegister
  | OpWriteMaskEnableRegister v => as_ret RBool (writeMaskEnableRegister v)
  | OpReadAlertLimitRegister => as_ret RDouble readAlertLimitRegister
  | OpWriteAlertLimitRegister v => as_ret RBool (writeAlertLimitRegister v)
  | OpEnableOverCurrentLimitAlert x =>
      as_ret RBool (enableOverCurrentLimitAlert x)
  | OpEnableUnderCurrentLimitAlert x =>
      as_ret RBool (enableUnderCurrentLimitAlert x)
  | OpEnableBusOvertLimitAlert x =>
      as_ret RBool (enableBusOvertLimitAlert x)
  | OpEnableBusUnderLimitAlert x =>
      as_ret RBool (enableBusUnderLimitAlert x)
  | OpEnableOverPowerLimitAlert x =>
      as_ret RBool (enableOverPowerLimitAlert x)
  | OpSetCurrentLimit x => as_ret RBool (setCurrentLimit x)
  | OpSetBusVoltageLimit x => as_ret RBool (setBusVoltageLimit x)
  | OpSetPowerLimit x => as_ret RBool (setPowerLimit x)
  | OpIsMathOverFlow => as_ret RBool isMathOverFlow
  | OpIsAlert => as_ret RBool isAlert
  | OpClearAlert => as_ret (fun _ => RVoid) clearAlert
  | OpIsAlertPolaritySet => as_ret RBool isAlertPolaritySet
  | OpSetAlertPolarity b => as_ret RBool (setAlertPolarity b)
  | OpIsAlertLatchSet => as_ret RBool isAlertLatchSet
  | OpSetAlertLatch b => as_ret RBool (setAlertLatch b)
  | OpGetMode => as_ret RMode getMode
  | OpSetMode m => as_ret (fun _ => RVoid) (setMode m)
  | OpIsConversionRready => as_ret RBool isConversionRready
  | OpSetConversionReadyAlert b => as_ret RBool (setConversionReadyAlert b)
  | OpGetCurrentConversionTime =>
      as_ret RConversionTime getCurrentConversionTime
  | OpSetCurrentConversionTime t =>
      as_ret RBool (setCurrentConversionTime t)
  | OpGetVoltageConversionTime =>
      as_ret RConversionTime getVoltageConversionTime
  | OpSetVoltageConversionTime t =>
      as_ret RBool (setVoltageConversionTime t)
  | OpGetAveragingCount => as_ret RAveragingCount getAveragingCount
  | OpSetAveragingCount c => as_ret RBool (setAveragingCount c)
  | OpReadManufactuerId => as_ret RString readManufactuerId
  | OpReadDieId => as_ret RDieId readDieId
  end.

End Driver.


(** ** A simulated bus with one INA260 on it *)

Module Sim.

(** The bus state: the addresses that acknowledge, the address of the
chip, the chip's registers (latest write first; an absent register reads 0)
and register pointer, and the transmit and receive buffers of the
library. *)
Record Bus : Type := mkBus {
  present : list Z;
  chip : Z;
  regs : list (Z * Z);
  pointer : Z;
  tx_addr : Z;
  tx_buf : list Z;
  rx_buf : list Z
}.

Fixpoint reg_value (r : Z) (l : list (Z * Z)) : Z :=
  match l with
  | [] => 0
  | (k, v) :: t => if k =? r then v else reg_value r t
  end.

Definition acknowledges (a : Z) (b : Bus) : bool :=
  existsb (Z.eqb a) (present b).

Definition beginTransmission (a : Z) (b : Bus) : Bus :=
  mkBus (present b) (chip b) (regs b) (pointer b) a [] (rx_buf b).

Definition write (x : Z) (b : Bus) : Bus :=
  mkBus (present b) (chip b) (regs b) (pointer b) (tx_addr b)
        (tx_buf b ++ [x]) (rx_buf b).

(** The chip takes the first byte of a write as its register pointer and
two further bytes as the new value of that register. *)
Definition endTransmission (b : Bus) : Z * Bus :=
  if acknowledges (tx_addr b) b then
    if tx_addr b =? chip b then
      match tx_buf b with
      | [r] =>
          (0, mkBus (present b) (chip b) (regs b) r (tx_addr b) []
                    (rx_buf b))
      | [r; hi; lo] =>
          (0, mkBus (present b) (chip b) ((r, hi * 256 + lo) :: regs b) r
                    (tx_addr b) [] (rx_buf b))
      | _ => (0, mkBus (present b) (chip b) (regs b) (pointer b) (tx_addr b)
                       [] (rx_buf b))
      end
    else (0, mkBus (present b) (chip b) (regs b) (pointer b) (tx_addr b) []
                   (rx_buf b))
  else (2, mkBus (present b) (chip b) (regs b) (pointer b) (tx_addr b) []
                 (rx_buf b)).

Definition requestFrom (a n : Z) (b : Bus) : Bus :=
  let v := reg_value (pointer b) (regs b) in
  mkBus (present b) (chip b) (regs b) (pointer b) (tx_addr b) (tx_buf b)
        (if acknowledges a b && (a =? chip b)
         then firstn (Z.to_nat n) [v / 256 mod 256; v mod 256]
         else []).

Definition available (b : Bus) : Z := Z.of_nat (List.length (rx_buf b)).

Definition read (b : Bus) : Z * Bus :=
  match rx_buf b with
  | [] => (-1, b)
  | x :: t =>
      (x, mkBus (present b) (chip b) (regs b) (pointer b) (tx_addr b)
                (tx_buf b) t)
  end.

#[global] Instance bus : WireBus Bus := {
  Wire_begin := fun b => b;
  Wire_beginTransmission := beginTransmission;
  Wire_write := write;
  Wire_endTransmission := endTransmission;
  Wire_requestFrom := requestFrom;
  Wire_available := available;
  Wire_read := read
}.

(** A bus on which the addresses [acks] acknowledge and the chip at [c]
holds the registers [rs]. *)
Definition bus_with (acks : list Z) (c : Z) (rs : list (Z * Z)) : Bus :=
  mkBus acks c rs 0 0 [] [].

(** A driver object set to address [a], with an empty discovery buffer. *)
Definition object (a : Z) : INA260 :=
  mkINA260 a (repeat 0 16) 0.

(** The state of a sketch that talks to a chip at 0x40 holding [rs]. *)
Definition state (rs : list (Z * Z)) : State Bus :=
  mkState (object 0x40) false (bus_with [0x40] 0x40 rs).

(** The state of a sketch on a bus where nothing acknowledges. *)
Definition silent : State Bus :=
  mkState (object 0x40) false (bus_with [] 0x40 []).

End Sim.

(** ** The register accessors grouped by what they do *)

(** The five alert-enable methods. *)
Inductive AlertMethod : Type :=
  | OverCurrentLimit | UnderCurrentLimit | BusOvertLimit | BusUnderLimit
  | OverPowerLimit.

(** The setters of one bit-field of a multi-field register. *)
Inductive FieldSetter : Type :=
  | SetMode (mode : Mode)
  | SetCurrentConversionTime (time : ConversionTime)
  | SetVoltageConversionTime (time : ConversionTime)
  | SetAveragingCount (count : AveragingCount)
  | SetAlertPolarity (polarity : bool)
  | SetAlertLatch (latch : bool)
  | SetConversionReadyAlert (state : bool).

Section Groups.
Context {W : Type} {bus : WireBus W}.
Variable T : Target.

Definition alert_enable (m : AlertMethod) (x : Z) : M W bool :=
  match m with
  | OverCurrentLimit => enableOverCurrentLimitAlert T x
  | UnderCurrentLimit => enableUnderCurrentLimitAlert T x
  | BusOvertLimit => enableBusOvertLimitAlert T x
  | BusUnderLimit => enableBusUnderLimitAlert T x
  | OverPowerLimit => enableOverPowerLimitAlert T x
  end.

Definition alert_limit_setter (m : AlertMethod) (x : Z) : M W bool :=
  match m with
  | OverCurrentLimit | UnderCurrentLimit => setCurrentLimit T x
  | BusOvertLimit | BusUnderLimit => setBusVoltageLimit T x
  | OverPowerLimit => setPowerLimit T x
  end.

Definition alert_flag (m : AlertMethod) : Field :=
  match m with
  | OverCurrentLimit => MaskEnableRegister.ocl
  | UnderCurrentLimit => MaskEnableRegister.ucl
  | BusOvertLimit => MaskEnableRegister.bol
  | BusUnderLimit => MaskEnableRegister.bul
  | OverPowerLimit => MaskEnableRegister.pol
  end.

Definition run_setter (fs : FieldSetter) : M W unit :=
  match fs with
  | SetMode m => setMode T m
  | SetCurrentConversionTime t =>
      bind (setCurrentConversionTime T t) (fun _ => ret tt)
  | SetVoltageConversionTime t =>
      bind (setVoltageConversionTime T t) (fun _ => ret tt)
  | SetAveragingCount c => bind (setAveragingCount T c) (fun _ => ret tt)
  | SetAlertPolarity b => bind (setAlertPolarity T b) (fun _ => ret tt)
  | SetAlertLatch b => bind (setAlertLatch T b) (fun _ => ret tt)
  | SetConversionReadyAlert b =>
      bind (setConversionReadyAlert T b) (fun _ => ret tt)
  end.

(** The bus after the driver selected register [reg] of the device at [a]
and requested two bytes: the state in which [readRegister] asks how many
bytes are available. *)
Definition bus_reply (a reg : Z) (w : W) : W :=
  Wire_requestFrom a 2
    (snd (Wire_endTransmission
            (Wire_write reg (Wire_beginTransmission a w)))).

(** [reads_short regs s]: each of the register reads [regs], made in turn
from state [s], is answered with fewer than two bytes. *)
Fixpoint reads_short (regs : list Z) (s : State W) : Prop :=
  match regs with
  | [] => True
  | r :: rs =>
      Wire_available (bus_reply (address (obj s)) r (wire s)) < 2
      /\ reads_short rs (after (readRegister T r s))
  end.

(** [reads_zero regs s]: each of the register reads [regs], made in turn
from state [s], is answered with two bytes that make the value 0. *)
Fixpoint reads_zero (regs : list Z) (s : State W) : Prop :=
  match regs with
  | [] => True
  | r :: rs =>
      Wire_available (bus_reply (address (obj s)) r (wire s)) = 2
      /\ value (readRegister T r s) = 0
      /\ reads_zero rs (after (readRegister T r s))
  end.

(** The value an alert-enable method passes on to the alert limit
register. *)
Definition alert_limit_value (m : AlertMethod) (x : Z) : Z :=
  match m with
  | OverPowerLimit => div_10 T x
  | _ => div_1_25 T x
  end.

(** The Mask/Enable value an alert-enable method writes back when it read
[reg]. *)
Definition alert_select (m : AlertMethod) (reg : Z) : Z :=
  match m with
  | OverCurrentLimit => select_limit 1 0 0 0 0 reg
  | UnderCurrentLimit => select_limit 0 1 0 0 0 reg
  | BusOvertLimit => select_limit 0 0 1 0 0 reg
  | BusUnderLimit => select_limit 0 0 0 1 0 reg
  | OverPowerLimit => select_limit 0 0 0 0 1 reg
  end.

End Groups.

Definition setter_register (fs : FieldSetter) : Z :=
  match fs with
  | SetMode _ | SetCurrentConversionTime _ | SetVoltageConversionTime _
  | SetAveragingCount _ => INA260_CONFIG_REGISTER
  | _ => INA260_MASK_ENABLE_REGISTER
  end.

Definition setter_field (fs : FieldSetter) : Field :=
  match fs with
  | SetMode _ => ConfigurationRegister.mode
  | SetCurrentConversionTime _ => ConfigurationRegister.ishct
  | SetVoltageConversionTime _ => ConfigurationRegister.vbusct
  | SetAveragingCount _ => ConfigurationRegister.avg
  | SetAlertPolarity _ => MaskEnableRegister.apol
  | SetAlertLatch _ => MaskEnableRegister.len
  | SetConversionReadyAlert _ => MaskEnableRegister.cnvr
  end.

Definition setter_argument (fs : FieldSetter) : Z :=
  match fs with
  | SetMode m => Mode_to_Z m
  | SetCurrentConversionTime t | SetVoltageConversionTime t =>
      ConversionTime_to_Z t
  | SetAveragingCount c => AveragingCount_to_Z c
  | SetAlertPolarity b | SetAlertLatch b | SetConversionReadyAlert b =>
      Z_of_bool b
  end.

(** [in_field f i]: bit [i] belongs to the bit-field [f]. *)
Definition in_field (f : Field) (i : Z) : Prop :=
  f_off f <= i < f_off f + f_width f.

(** A bit-field that lies within the 16 bits of a register. *)
Definition field_ok (f : Field) : Prop :=
  0 <= f_off f /\ 0 < f_width f /\ f_off f + f_width f <= 16.

(** The consecutive addresses [a], [a+1], ... ([n] of them). *)
Fixpoint addresses_from (n : nat) (a : Z) : list Z :=
  match n with
  | O => []
  | S k => a :: addresses_from k (a + 1)
  end.

(** The bus calls of an empty transmission to each address of a list. *)
Definition probes (l : list Z) : list Event :=
  flat_map (fun a => [EvBeginTransmission a; EvEndTransmission]) l.

(** The object after the acknowledging addresses [acks] were recorded in
turn: each is stored at index [deviceCount], which is then incremented. *)
Fixpoint record_all (acks : list Z) (o : INA260) : INA260 :=
  match acks with
  | [] => o
  | a :: r =>
      record_all r (mkINA260 (address o)
                             (list_set (Z.to_nat (deviceCount o)) a
                                       (devices o))
                             (deviceCount o + 1))
  end.

(** [in_bounds acks o]: recording [acks] in [o] stores within [devices]. *)
Definition in_bounds (acks : list Z) (o : INA260) : Prop :=
  acks = []
  \/ (0 <= deviceCount o
      /\ deviceCount o + Z.of_nat (List.length acks) <= 16).

(** The number of register reads and register writes of each public
method. *)
Definition bus_cost (op : Op) : nat * nat :=
  match op with
  | OpSetAddress _ | OpGetAddress => (0, 0)%nat
  | OpBegin | OpReset | OpWriteRegister _ _
  | OpWriteConfigurationRegister _ | OpWriteMaskEnableRegister _
  | OpWriteAlertLimitRegister _
  | OpSetCurrentLimit _ | OpSetBusVoltageLimit _ | OpSetPowerLimit _ =>
      (0, 1)%nat
  | OpReadAlertLimitRegister => (2, 0)%nat
  | OpEnableOverCurrentLimitAlert _ | OpEnableUnderCurrentLimitAlert _
  | OpEnableBusOvertLimitAlert _ | OpEnableBusUnderLimitAlert _
  | OpEnableOverPowerLimitAlert _ => (1, 2)%nat
  | OpSetAlertPolarity _ | OpSetAlertLatch _ | OpSetMode _
  | OpSetConversionReadyAlert _ | OpSetCurrentConversionTime _
  | OpSetVoltageConversionTime _ | OpSetAveragingCount _ => (1, 1)%nat
  | _ => (1, 0)%nat
  end.

(** The registers a read accessor reads, in order ([None] for the methods
that are not read accessors). *)
Definition read_registers (op : Op) : option (list Z) :=
  match op with
  | OpReadRegister r => Some [r]
  | OpReadConfigurationRegister | OpGetMode | OpGetCurrentConversionTime
  | OpGetVoltageConversionTime | OpGetAveragingCount =>
      Some [INA260_CONFIG_REGISTER]
  | OpReadCurrent => Some [INA260_CURRENT_REGISTER]
  | OpReadBusVoltage => Some [INA260_VOLTAGE_REGISTER]
  | OpReadPower => Some [INA260_POWER_REGISTER]
  | OpReadMaskEnableRegister | OpIsMathOverFlow | OpIsAlert
  | OpIsAlertPolaritySet | OpIsAlertLatchSet | OpIsConversionRready =>
      Some [INA260_MASK_ENABLE_REGISTER]
  | OpReadAlertLimitRegister =>
      Some [INA260_MASK_ENABLE_REGISTER; INA260_ALERT_LIMIT_REGISTER]
  | OpReadManufactuerId => Some [INA260_MANUFACTURER_ID_REGISTER]
  | OpReadDieId => Some [INA260_DIE_ID_REGISTER]
  | _ => None
  end.

(** The facts about the scaling arithmetic that are decided by evaluating
them on every 16-bit value [x]: the products by 1.25 are exact in [double]
and in [float], the quotient by 1.25 converts to the integer part of
[4 * x / 5], and the integer products by 10 convert exactly. *)
Definition scaling_exact (T : Target) (x : Z) : bool :=
  SFis (mul_1_25 T x) (inject_Z x * (5 # 4))
  && SFis (double_as_float (mul_1_25 T x)) (inject_Z x * (5 # 4))
  && (div_1_25 T x =? 4 * x / 5)
  && SFis (int_as_float (mul_10 T x)) (inject_Z (mul_10 T x))
  && SFis (int_as_double T (mul_10 T x)) (inject_Z (mul_10 T x)).

(** The device a bus transfer addresses. *)
Definition txn_addr (t : Txn) : Z :=
  match t with
  | TxWrite a _ => a
  | TxRead a _ => a
  end.

(** The getter that reads back what a single-field setter sets, and what it
returns for the argument of the setter.  ([setConversionReadyAlert] sets the
[cnvr] enable bit, which no getter reads: [isConversionRready] reads the
[cvrf] flag.) *)
Definition setter_getter (fs : FieldSetter) : option Op :=
  match fs with
  | SetMode _ => Some OpGetMode
  | SetCurrentConversionTime _ => Some OpGetCurrentConversionTime
  | SetVoltageConversionTime _ => Some OpGetVoltageConversionTime
  | SetAveragingCount _ => Some OpGetAveragingCount
  | SetAlertPolarity _ => Some OpIsAlertPolaritySet
  | SetAlertLatch _ => Some OpIsAlertLatchSet
  | SetConversionReadyAlert _ => None
  end.

Definition setter_result (fs : FieldSetter) : Ret :=
  match fs with
  | SetMode m => RMode m
  | SetCurrentConversionTime t | SetVoltageConversionTime t =>
      RConversionTime t
  | SetAveragingCount c => RAveragingCount c
  | SetAlertPolarity b | SetAlertLatch b | SetConversionReadyAlert b =>
      RBool b
  end.


(** * Properties *)

(** ** Arithmetic *)

Lemma all_bits_spec (n : nat) (f : Z -> bool) :
  forall base, all_bits n base f = true ->
  forall z, base * 2 ^ Z.of_nat n <= z < (base + 1) * 2 ^ Z.of_nat n ->
            f z = true.
Proof.
  induction n as [|k IH]; intros base H z Hz.
  - simpl in *. replace z with base by lia. exact H.
  - cbn [all_bits] in H. apply andb_true_iff in H as [H0 H1].
    rewrite Nat2Z.inj_succ, Z.pow_succ_r in Hz by lia.
    destruct (Z_lt_le_dec z ((2 * base + 1) * 2 ^ Z.of_nat k)) as [Hlt|Hge].
    + apply (IH _ H0). lia.
    + apply (IH _ H1). lia.
Qed.

Lemma all_u16_spec (f : Z -> bool) :
  all_u16 f = true -> forall z, 0 <= z < 65536 -> f z = true.
Proof.
  intros H z Hz. apply (all_bits_spec 16 f 0 H). simpl. lia.
Qed.

Lemma SFis_value (x : spec_float) (q : Q) : SFis x q = true -> SFvalue x q.
Proof.
  unfold SFis, SFvalue. destruct (SF2Q x) as [v|]; [|discriminate].
  intro H. exists v. split; [reflexivity|]. apply Qeq_bool_iff. exact H.
Qed.

Lemma scaling_exact_all (T : Target) : all_u16 (scaling_exact T) = true.
Proof. destruct T; vm_cast_no_check (eq_refl true). Qed.

Lemma scaling_at (T : Target) (x : Z) :
  0 <= x < 65536 -> scaling_exact T x = true.
Proof. apply all_u16_spec, scaling_exact_all. Qed.

Lemma mul_1_25_value (T : Target) (x : Z) :
  0 <= x < 65536 ->
  SFvalue (mul_1_25 T x) (inject_Z x * (5 # 4)).
Proof.
  intro Hx. pose proof (scaling_at T x Hx) as H. unfold scaling_exact in H.
  repeat (apply andb_true_iff in H as [H ?]). apply SFis_value, H.
Qed.

Lemma mul_1_25_float_value (T : Target) (x : Z) :
  0 <= x < 65536 ->
  SFvalue (double_as_float (mul_1_25 T x)) (inject_Z x * (5 # 4)).
Proof.
  intro Hx. pose proof (scaling_at T x Hx) as H. unfold scaling_exact in H.
  repeat (apply andb_true_iff in H as [H ?]). apply SFis_value. assumption.
Qed.

Lemma div_1_25_value (T : Target) (x : Z) :
  0 <= x < 65536 -> div_1_25 T x = 4 * x / 5.
Proof.
  intro Hx. pose proof (scaling_at T x Hx) as H. unfold scaling_exact in H.
  repeat (apply andb_true_iff in H as [H ?]). apply Z.eqb_eq. assumption.
Qed.

Lemma mul_10_float_value (T : Target) (x : Z) :
  0 <= x < 65536 ->
  SFvalue (int_as_float (mul_10 T x)) (inject_Z (mul_10 T x)).
Proof.
  intro Hx. pose proof (scaling_at T x Hx) as H. unfold scaling_exact in H.
  repeat (apply andb_true_iff in H as [H ?]). apply SFis_value. assumption.
Qed.

Lemma mul_10_double_value (T : Target) (x : Z) :
  0 <= x < 65536 ->
  SFvalue (int_as_double T (mul_10 T x)) (inject_Z (mul_10 T x)).
Proof.
  intro Hx. pose proof (scaling_at T x Hx) as H. unfold scaling_exact in H.
  repeat (apply andb_true_iff in H as [H ?]). apply SFis_value. assumption.
Qed.

Lemma u16_range (z : Z) : 0 <= u16 z < 65536.
Proof. unfold u16. apply Z.mod_pos_bound. lia. Qed.

Lemma u16_small (z : Z) : 0 <= z < 65536 -> u16 z = z.
Proof. intro H. unfold u16. apply Z.mod_small, H. Qed.

Lemma div_1_25_range (T : Target) (x : Z) : 0 <= div_1_25 T x < 65536.
Proof. unfold div_1_25. apply u16_range. Qed.

Lemma div_10_range (T : Target) (x : Z) : 0 <= div_10 T x < 65536.
Proof. unfold div_10. apply u16_range. Qed.

Lemma div_10_value (T : Target) (x : Z) :
  0 <= x < 65536 -> div_10 T x = x / 10.
Proof.
  intro Hx. unfold div_10, arith16, u16.
  assert (0 <= x / 10 < 65536).
  { split; [apply Z.div_pos; lia|].
    apply Z.div_lt_upper_bound; lia. }
  destruct (int_bits T =? 16); rewrite ?Z.mod_mod by lia;
    apply Z.mod_small; assumption.
Qed.

(** The two data bytes of a register write carry the 16-bit value. *)
Lemma bytes_recombine (v : Z) :
  Z.land (Z.shiftr v 8) 0xFF * 256 + Z.land v 0xFF = u16 v.
Proof.
  change 0xFF with (Z.ones 8).
  rewrite !Z.land_ones, Z.shiftr_div_pow2 by lia.
  change (2 ^ 8) with 256. unfold u16.
  pose proof (Z.div_mod v 256 ltac:(lia)).
  pose proof (Z.div_mod (v / 256) 256 ltac:(lia)).
  pose proof (Z.mod_pos_bound v 256 ltac:(lia)).
  pose proof (Z.mod_pos_bound (v / 256) 256 ltac:(lia)).
  apply (Z.mod_unique_pos _ _ ((v / 256) / 256)); lia.
Qed.

(** ** Bit-fields *)

Lemma get_field_bit (f : Field) (raw i : Z) :
  0 <= i -> 0 <= f_off f -> 0 <= f_width f ->
  Z.testbit (get_field f raw) i
  = (i <? f_width f) && Z.testbit raw (i + f_off f).
Proof.
  intros Hi Ho Hw. unfold get_field.
  rewrite Z.land_spec, Z.shiftr_spec, Z.testbit_ones_nonneg by lia.
  apply andb_comm.
Qed.

Lemma set_field_bit (f : Field) (v raw i : Z) :
  0 <= i -> 0 <= f_off f -> 0 <= f_width f ->
  Z.testbit (set_field f v raw) i
  = if (f_off f <=? i) && (i <? f_off f + f_width f)
    then Z.testbit v (i - f_off f)
    else Z.testbit raw i.
Proof.
  intros Hi Ho Hw. unfold set_field.
  rewrite Z.lor_spec, Z.ldiff_spec, !Z.shiftl_spec, Z.land_spec by lia.
  rewrite !Z.testbit_ones by lia.
  destruct (Z.leb_spec (f_off f) i) as [H1|H1];
    destruct (Z.ltb_spec i (f_off f + f_width f)) as [H2|H2]; cbn [andb].
  - replace (0 <=? i - f_off f) with true by (symmetry; apply Z.leb_le; lia).
    replace (i - f_off f <? f_width f) with true
      by (symmetry; apply Z.ltb_lt; lia).
    cbn. rewrite andb_false_r, andb_true_r. reflexivity.
  - replace (i - f_off f <? f_width f) with false
      by (symmetry; apply Z.ltb_ge; lia).
    rewrite !andb_false_r. cbn. rewrite andb_true_r, orb_false_r.
    reflexivity.
  - replace (0 <=? i - f_off f) with false by (symmetry; apply Z.leb_gt; lia).
    cbn. rewrite andb_true_r, andb_false_r, orb_false_r. reflexivity.
  - replace (0 <=? i - f_off f) with false by (symmetry; apply Z.leb_gt; lia).
    cbn. rewrite andb_true_r, andb_false_r, orb_false_r. reflexivity.
Qed.

Lemma set_field_frame (f : Field) (v raw i : Z) :
  0 <= i -> 0 <= f_off f -> 0 <= f_width f -> ~ in_field f i ->
  Z.testbit (set_field f v raw) i = Z.testbit raw i.
Proof.
  intros Hi Ho Hw Hn. rewrite set_field_bit by assumption.
  unfold in_field in Hn.
  destruct (Z.leb_spec (f_off f) i); destruct (Z.ltb_spec i (f_off f + f_width f));
    cbn [andb]; try reflexivity. lia.
Qed.

Lemma get_set_same (f : Field) (v raw : Z) :
  0 <= f_off f -> 0 <= f_width f ->
  get_field f (set_field f v raw) = v mod 2 ^ f_width f.
Proof.
  intros Ho Hw. apply Z.bits_inj'. intros i Hi.
  rewrite get_field_bit, set_field_bit by lia.
  destruct (Z.ltb_spec i (f_width f)) as [H|H]; cbn [andb].
  - rewrite Z.mod_pow2_bits_low by lia.
    replace (f_off f <=? i + f_off f) with true
      by (symmetry; apply Z.leb_le; lia).
    replace (i + f_off f <? f_off f + f_width f) with true
      by (symmetry; apply Z.ltb_lt; lia).
    cbn. f_equal. lia.
  - rewrite Z.mod_pow2_bits_high by lia. reflexivity.
Qed.

Lemma get_set_other (f g : Field) (v raw : Z) :
  0 <= f_off f -> 0 <= f_width f -> 0 <= f_off g -> 0 <= f_width g ->
  f_off g + f_width g <= f_off f \/ f_off f + f_width f <= f_off g ->
  get_field g (set_field f v raw) = get_field g raw.
Proof.
  intros Hof Hwf Hog Hwg Hd. apply Z.bits_inj'. intros i Hi.
  rewrite !get_field_bit by lia.
  destruct (Z.ltb_spec i (f_width g)) as [H|H]; cbn [andb]; [|reflexivity].
  apply set_field_frame; try lia. unfold in_field. lia.
Qed.

Lemma set_get_id (f : Field) (raw : Z) :
  0 <= f_off f -> 0 <= f_width f ->
  set_field f (get_field f raw) raw = raw.
Proof.
  intros Ho Hw. apply Z.bits_inj'. intros i Hi.
  rewrite set_field_bit by lia.
  destruct (Z.leb_spec (f_off f) i);
    destruct (Z.ltb_spec i (f_off f + f_width f)); cbn [andb];
    try reflexivity.
  rewrite get_field_bit by lia.
  replace (i - f_off f <? f_width f) with true
    by (symmetry; apply Z.ltb_lt; lia).
  cbn. f_equal. lia.
Qed.

Lemma set_field_range (f : Field) (v raw : Z) :
  field_ok f -> 0 <= raw < 65536 -> 0 <= set_field f v raw < 65536.
Proof.
  intros (Ho & Hw & Hb) Hr.
  assert (E : set_field f v raw = (set_field f v raw) mod 2 ^ 16).
  { apply Z.bits_inj'. intros i Hi.
    destruct (Z_lt_le_dec i 16) as [Hlt|Hge].
    - rewrite Z.mod_pow2_bits_low by lia. reflexivity.
    - rewrite Z.mod_pow2_bits_high by lia.
      rewrite set_field_frame by (unfold in_field; lia).
      replace raw with (raw mod 2 ^ 16) by (apply Z.mod_small; lia).
      apply Z.mod_pow2_bits_high. lia. }
  rewrite E. change (2 ^ 16) with 65536. apply Z.mod_pos_bound. lia.
Qed.

Lemma get_field_ext (f : Field) (a b : Z) :
  0 <= f_off f -> 0 <= f_width f ->
  (forall i, in_field f i -> Z.testbit a i = Z.testbit b i) ->
  get_field f a = get_field f b.
Proof.
  intros Ho Hw H. apply Z.bits_inj'. intros i Hi.
  rewrite !get_field_bit by lia.
  destruct (Z.ltb_spec i (f_width f)); cbn [andb]; [|reflexivity].
  apply H. unfold in_field. lia.
Qed.

Lemma get_field_range (f : Field) (raw : Z) :
  0 <= f_width f -> 0 <= get_field f raw < 2 ^ f_width f.
Proof.
  intro Hw. unfold get_field. rewrite Z.land_ones by lia.
  apply Z.mod_pos_bound. apply Z.pow_pos_nonneg; lia.
Qed.

(** ** The monad *)

Lemma bind_value {W A B : Type} (m : M W A) (k : A -> M W B) (s : State W) :
  value (bind m k s) = value (k (value (m s)) (after (m s))).
Proof. reflexivity. Qed.

Lemma bind_after {W A B : Type} (m : M W A) (k : A -> M W B) (s : State W) :
  after (bind m k s) = after (k (value (m s)) (after (m s))).
Proof. reflexivity. Qed.

Lemma bind_events {W A B : Type} (m : M W A) (k : A -> M W B) (s : State W) :
  events (bind m k s)
  = events (m s) ++ events (k (value (m s)) (after (m s))).
Proof. reflexivity. Qed.

Ltac step_bind :=
  repeat (progress (rewrite ?bind_events, ?bind_value, ?bind_after;
                    cbv beta)).

(** ** Raw register access *)

Section RegisterAccess.
Context {W : Type} {bus : WireBus W}.
Variable T : Target.

Lemma readRegister_events (reg : Z) (s : State W) :
  events (readRegister T reg s)
  = [EvBeginTransmission (address (obj s)); EvWrite reg; EvEndTransmission;
     EvRequestFrom (address (obj s)) 2; EvAvailable]
    ++ (if Wire_available (bus_reply (address (obj s)) reg (wire s)) =? 2
        then [EvRead; EvRead] else []).
Proof.
  unfold readRegister, bus_reply. cbn.
  destruct (Wire_available _ =? 2); reflexivity.
Qed.

Lemma readRegister_range (reg : Z) (s : State W) :
  0 <= value (readRegister T reg s) < 65536.
Proof.
  unfold readRegister. cbn.
  destruct (Wire_available _ =? 2); cbn; [apply u16_range|lia].
Qed.

Lemma readRegister_obj (reg : Z) (s : State W) :
  obj (after (readRegister T reg s)) = obj s
  /\ wireInitialized (after (readRegister T reg s)) = wireInitialized s.
Proof.
  unfold readRegister. cbn.
  destruct (Wire_available _ =? 2); cbn; split; reflexivity.
Qed.

Lemma readRegister_transactions (reg : Z) (s : State W) :
  transactions (events (readRegister T reg s))
  = [TxWrite (address (obj s)) [reg]; TxRead (address (obj s)) 2].
Proof.
  rewrite readRegister_events. unfold transactions. cbn.
  destruct (Wire_available _ =? 2); reflexivity.
Qed.

Lemma writeRegister_events (reg v : Z) (s : State W) :
  events (writeRegister reg v s)
  = [EvBeginTransmission (address (obj s)); EvWrite reg;
     EvWrite (Z.land (Z.shiftr v 8) 0xFF); EvWrite (Z.land v 0xFF);
     EvEndTransmission].
Proof. reflexivity. Qed.

Lemma writeRegister_obj (reg v : Z) (s : State W) :
  obj (after (writeRegister reg v s)) = obj s
  /\ wireInitialized (after (writeRegister reg v s)) = wireInitialized s.
Proof. split; reflexivity. Qed.

Lemma txns_from_app (l1 l2 : list Event) :
  forall o,
    txns_from o (l1 ++ l2)
    = txns_from o l1 ++ txns_from (open_after o l1) l2.
Proof.
  induction l1 as [|e l1 IH]; intro o; [reflexivity|].
  destruct e; cbn [app txns_from open_after]; try apply IH.
  - destruct o as [[a bs]|]; cbn [app]; rewrite IH; reflexivity.
  - rewrite IH. reflexivity.
Qed.

Lemma open_after_app (l1 l2 : list Event) :
  forall o, open_after o (l1 ++ l2) = open_after (open_after o l1) l2.
Proof.
  induction l1 as [|e l1 IH]; intro o; [reflexivity|].
  destruct e; cbn [app open_after]; apply IH.
Qed.

Lemma written_of_app (t1 t2 : list Txn) :
  written_of (t1 ++ t2) = written_of t1 ++ written_of t2.
Proof.
  induction t1 as [|t t1 IH]; [reflexivity|].
  destruct t as [a bs|a n]; cbn [app written_of]; [|exact IH].
  destruct bs as [|b1 [|b2 [|b3 [|b4 bs]]]]; cbn [app]; rewrite ?IH;
    reflexivity.
Qed.

(** The trace of a method that left no transmission open can be read
transaction by transaction. *)
Lemma transactions_app (l1 l2 : list Event) :
  open_after None l1 = None ->
  transactions (l1 ++ l2) = transactions l1 ++ transactions l2.
Proof.
  intro H. unfold transactions. rewrite txns_from_app, H. reflexivity.
Qed.

Lemma written_app (l1 l2 : list Event) :
  open_after None l1 = None ->
  written (l1 ++ l2) = written l1 ++ written l2.
Proof.
  intro H. unfold written. rewrite transactions_app by exact H.
  apply written_of_app.
Qed.

Lemma readRegister_closed (reg : Z) (s : State W) :
  open_after None (events (readRegister T reg s)) = None.
Proof.
  rewrite readRegister_events. cbn.
  destruct (Wire_available _ =? 2); reflexivity.
Qed.

Lemma readRegister_written (reg : Z) (s : State W) :
  written (events (readRegister T reg s)) = [].
Proof. unfold written. rewrite readRegister_transactions. reflexivity. Qed.

Lemma writeRegister_closed (reg v : Z) (s : State W) :
  open_after None (events (writeRegister reg v s)) = None.
Proof. reflexivity. Qed.

Lemma writeRegister_transactions (reg v : Z) (s : State W) :
  transactions (events (writeRegister reg v s))
  = [TxWrite (address (obj s))
             [reg; Z.land (Z.shiftr v 8) 0xFF; Z.land v 0xFF]].
Proof. reflexivity. Qed.

Lemma writeRegister_written (reg v : Z) (s : State W) :
  written (events (writeRegister reg v s)) = [(address (obj s), reg, u16 v)].
Proof.
  unfold written. rewrite writeRegister_transactions. cbn [written_of].
  rewrite bytes_recombine. reflexivity.
Qed.

End RegisterAccess.

(** ** Alert configuration *)

Lemma select_limit_range (a b c d e raw : Z) :
  0 <= raw < 65536 -> 0 <= select_limit a b c d e raw < 65536.
Proof.
  intro H. unfold select_limit.
  repeat (apply set_field_range; [unfold field_ok; cbn; lia|]).
  exact H.
Qed.

Lemma select_limit_flags (a b c d e raw : Z) :
  let v := select_limit a b c d e raw in
  get_field MaskEnableRegister.ocl v = a mod 2
  /\ get_field MaskEnableRegister.ucl v = b mod 2
  /\ get_field MaskEnableRegister.bol v = c mod 2
  /\ get_field MaskEnableRegister.bul v = d mod 2
  /\ get_field MaskEnableRegister.pol v = e mod 2.
Proof.
  cbv zeta. unfold select_limit.
  repeat split;
    repeat first
      [ rewrite get_set_same by (cbn; lia); reflexivity
      | rewrite get_set_other by (cbn; lia) ].
Qed.

(** The bits of the Mask/Enable register below the five limit flags. *)
Lemma select_limit_frame (a b c d e raw i : Z) :
  0 <= i < 11 ->
  Z.testbit (select_limit a b c d e raw) i = Z.testbit raw i.
Proof.
  intro Hi. unfold select_limit.
  repeat rewrite set_field_frame by (unfold in_field; cbn; lia).
  reflexivity.
Qed.

Section Alerts.
Context {W : Type} {bus : WireBus W}.
Variable T : Target.

Lemma alert_select_range (m : AlertMethod) (raw : Z) :
  0 <= raw < 65536 -> 0 <= alert_select m raw < 65536.
Proof. intro H. destruct m; apply select_limit_range, H. Qed.

Lemma alert_limit_value_range (m : AlertMethod) (x : Z) :
  0 <= alert_limit_value T m x < 65536.
Proof. destruct m; first [apply div_1_25_range | apply div_10_range]. Qed.

Lemma alert_limit_setter_written (m : AlertMethod) (x : Z) (s : State W) :
  written (events (alert_limit_setter T m x s))
  = [(address (obj s), INA260_ALERT_LIMIT_REGISTER, alert_limit_value T m x)].
Proof.
  destruct m; cbn [alert_limit_setter alert_limit_value];
    unfold setCurrentLimit, setBusVoltageLimit, setPowerLimit,
      writeAlertLimitRegister;
    rewrite writeRegister_written, u16_small;
    first [reflexivity | apply div_1_25_range | apply div_10_range].
Qed.

Lemma alert_limit_setter_closed (m : AlertMethod) (x : Z) (s : State W) :
  open_after None (events (alert_limit_setter T m x s)) = None.
Proof. destruct m; reflexivity. Qed.

Lemma alert_limit_setter_obj (m : AlertMethod) (x : Z) (s : State W) :
  obj (after (alert_limit_setter T m x s)) = obj s.
Proof. destruct m; reflexivity. Qed.

Lemma alert_enable_events (m : AlertMethod) (x : Z) (s : State W) :
  let r0 := readMaskEnableRegister T s in
  let r1 := alert_limit_setter T m x (after r0) in
  events (alert_enable T m x s)
  = events r0 ++ events r1
    ++ events (writeMaskEnableRegister (alert_select m (value r0))
                                       (after r1)).
Proof.
  cbv zeta.
  destruct m; cbn [alert_enable alert_limit_setter alert_select];
    unfold enableOverCurrentLimitAlert, enableUnderCurrentLimitAlert,
      enableBusOvertLimitAlert, enableBusUnderLimitAlert,
      enableOverPowerLimitAlert;
    step_bind; reflexivity.
Qed.

End Alerts.

(** C3.  Each of the five alert-enable methods reads the Mask/Enable
register, calls its limit setter with the argument it was given, and then
writes the Mask/Enable register back: the two register writes of the call
are, in this order, the alert limit and the Mask/Enable value.  In the
value written back the limit flag of the method is set and the other four
limit flags are clear. *)
Theorem alert_enable_selects_one_limit
  {W : Type} {bus : WireBus W} (T : Target)
  (m : AlertMethod) (x : Z) (s : State W) :
  let r0 := readMaskEnableRegister T s in
  let r1 := alert_limit_setter T m x (after r0) in
  exists v : Z,
    events (alert_enable T m x s)
    = events r0 ++ events r1
      ++ events (writeMaskEnableRegister v (after r1))
    /\ written (events (alert_enable T m x s))
       = written (events r1)
         ++ [(address (obj s), INA260_MASK_ENABLE_REGISTER, v)]
    /\ written (events r1)
       = [(address (obj s), INA260_ALERT_LIMIT_REGISTER,
           alert_limit_value T m x)]
    /\ get_field (alert_flag m) v = 1
    /\ (forall f, In f MaskEnableRegister.limit_flags ->
                  f <> alert_flag m -> get_field f v = 0).
Proof.
  cbv zeta.
  pose proof (readRegister_range T INA260_MASK_ENABLE_REGISTER s) as Hr.
  pose proof (readRegister_obj T INA260_MASK_ENABLE_REGISTER s) as [Ho _].
  exists (alert_select m (value (readMaskEnableRegister T s))).
  split; [apply alert_enable_events|].
  split.
  { rewrite alert_enable_events. cbv zeta.
    rewrite written_app by apply readRegister_closed.
    rewrite written_app by apply alert_limit_setter_closed.
    unfold readMaskEnableRegister at 1. rewrite readRegister_written.
    unfold writeMaskEnableRegister. rewrite writeRegister_written.
    rewrite alert_limit_setter_obj.
    unfold readMaskEnableRegister. rewrite Ho.
    rewrite u16_small by (apply alert_select_range, Hr). reflexivity. }
  split.
  { rewrite alert_limit_setter_written. unfold readMaskEnableRegister.
    rewrite Ho. reflexivity. }
  unfold readMaskEnableRegister.
  set (raw := value (readRegister T INA260_MASK_ENABLE_REGISTER s)).
  pose proof (select_limit_flags 1 0 0 0 0 raw) as F1.
  pose proof (select_limit_flags 0 1 0 0 0 raw) as F2.
  pose proof (select_limit_flags 0 0 1 0 0 raw) as F3.
  pose proof (select_limit_flags 0 0 0 1 0 raw) as F4.
  pose proof (select_limit_flags 0 0 0 0 1 raw) as F5.
  cbv zeta in F1, F2, F3, F4, F5.
  change (1 mod 2) with 1 in *. change (0 mod 2) with 0 in *.
  split.
  - destruct m; cbn [alert_flag alert_select]; tauto.
  - intros f Hf Hne. cbn in Hf.
    destruct m; cbn [alert_flag alert_select] in *;
      repeat (destruct Hf as [<-|Hf]; [try tauto; try congruence|]);
      destruct Hf.
Qed.

(** ** Setters of one bit-field *)

Lemma setter_field_ok (fs : FieldSetter) : field_ok (setter_field fs).
Proof. destruct fs; unfold field_ok; cbn; lia. Qed.

Lemma setter_argument_fits (fs : FieldSetter) :
  setter_argument fs mod 2 ^ f_width (setter_field fs) = setter_argument fs.
Proof.
  destruct fs as [m|t|t|c|b|b|b]; cbn;
    first [destruct m | destruct t | destruct c | destruct b]; reflexivity.
Qed.

Lemma run_setter_events {W : Type} {bus : WireBus W} (T : Target)
  (fs : FieldSetter) (s : State W) :
  let r0 := readRegister T (setter_register fs) s in
  events (run_setter T fs s)
  = events r0
    ++ events (writeRegister (setter_register fs)
                 (set_field (setter_field fs) (setter_argument fs)
                            (value r0))
                 (after r0)).
Proof.
  destruct fs; cbv zeta; cbn [run_setter];
    unfold setMode, setCurrentConversionTime, setVoltageConversionTime,
      setAveragingCount, setAlertPolarity, setAlertLatch,
      setConversionReadyAlert, readConfigurationRegister,
      writeConfigurationRegister, readMaskEnableRegister,
      writeMaskEnableRegister, bind;
    cbn [events value after ret setter_register setter_field
         setter_argument];
    rewrite ?app_nil_r; reflexivity.
Qed.

(** C5.  A single-field setter reads its register and writes one value
back to the same register.  The value written back has the argument in the
targeted bit-field and agrees with the value just read on every bit outside
that field, hence on every other bit-field of the register. *)
Theorem field_setter_changes_only_its_field
  {W : Type} {bus : WireBus W} (T : Target)
  (fs : FieldSetter) (s : State W) :
  let r0 := readRegister T (setter_register fs) s in
  let f := setter_field fs in
  exists v : Z,
    events (run_setter T fs s)
    = events r0 ++ events (writeRegister (setter_register fs) v (after r0))
    /\ written (events (run_setter T fs s))
       = [(address (obj s), setter_register fs, v)]
    /\ get_field f v = setter_argument fs
    /\ (forall i, 0 <= i -> ~ in_field f i ->
                  Z.testbit v i = Z.testbit (value r0) i)
    /\ (forall g, field_ok g ->
                  f_off g + f_width g <= f_off f
                  \/ f_off f + f_width f <= f_off g ->
                  get_field g v = get_field g (value r0)).
Proof.
  cbv zeta.
  pose proof (readRegister_range T (setter_register fs) s) as Hr.
  pose proof (readRegister_obj T (setter_register fs) s) as [Ho _].
  pose proof (setter_field_ok fs) as (Hoff & Hw & Hb).
  exists (set_field (setter_field fs) (setter_argument fs)
                    (value (readRegister T (setter_register fs) s))).
  split; [apply run_setter_events|].
  split.
  { rewrite run_setter_events. cbv zeta.
    rewrite written_app by apply readRegister_closed.
    rewrite readRegister_written, writeRegister_written, Ho.
    rewrite u16_small
      by (apply set_field_range; [apply setter_field_ok | exact Hr]).
    reflexivity. }
  split.
  { rewrite get_set_same by lia. apply setter_argument_fits. }
  split.
  { intros i Hi Hn. apply set_field_frame; try lia. exact Hn. }
  intros g (Hgo & Hgw & _) Hd. apply get_set_other; lia.
Qed.

(** ** Limit setters *)

Lemma Qfloor_div_1_25 (x : Z) : Qfloor (inject_Z x / (5 # 4)) = 4 * x / 5.
Proof.
  unfold Qfloor, Qdiv, Qmult, Qinv, inject_Z. cbn -[Z.mul Z.div].
  f_equal. lia.
Qed.

Lemma Qfloor_div_10 (x : Z) : Qfloor (inject_Z x / (10 # 1)) = x / 10.
Proof.
  unfold Qfloor, Qdiv, Qmult, Qinv, inject_Z. cbn -[Z.mul Z.div].
  f_equal. lia.
Qed.

(** C6.  For a [uint16_t] argument, [setCurrentLimit] and
[setBusVoltageLimit] write the integer part of the argument divided by 1.25
to the alert limit register, and [setPowerLimit] writes the integer part of
the argument divided by 10; each makes this one register write, on both
targets. *)
Theorem limit_setters_divide_by_scale
  {W : Type} {bus : WireBus W} (T : Target) (x : Z) (s : State W) :
  0 <= x < 65536 ->
  written (events (setCurrentLimit T x s))
  = [(address (obj s), INA260_ALERT_LIMIT_REGISTER,
      Qfloor (inject_Z x / (5 # 4)))]
  /\ written (events (setBusVoltageLimit T x s))
     = [(address (obj s), INA260_ALERT_LIMIT_REGISTER,
         Qfloor (inject_Z x / (5 # 4)))]
  /\ written (events (setPowerLimit T x s))
     = [(address (obj s), INA260_ALERT_LIMIT_REGISTER,
         Qfloor (inject_Z x / (10 # 1)))].
Proof.
  intro Hx.
  unfold setCurrentLimit, setBusVoltageLimit, setPowerLimit,
    writeAlertLimitRegister.
  rewrite !writeRegister_written, Qfloor_div_1_25, Qfloor_div_10.
  rewrite (u16_small (div_1_25 T x)) by apply div_1_25_range.
  rewrite (u16_small (div_10 T x)) by apply div_10_range.
  rewrite div_1_25_value, div_10_value by exact Hx.
  repeat split; reflexivity.
Qed.

Lemma limit_setters_divide_by_scale_witness :
  0 <= 1000 < 65536
  /\ written (events (setCurrentLimit AVR8 1000 (Sim.state [])))
     = [(address (obj (Sim.state [])), INA260_ALERT_LIMIT_REGISTER,
         Qfloor (inject_Z 1000 / (5 # 4)))]
  /\ written (events (setBusVoltageLimit AVR8 1000 (Sim.state [])))
     = [(address (obj (Sim.state [])), INA260_ALERT_LIMIT_REGISTER,
         Qfloor (inject_Z 1000 / (5 # 4)))]
  /\ written (events (setPowerLimit AVR8 1000 (Sim.state [])))
     = [(address (obj (Sim.state [])), INA260_ALERT_LIMIT_REGISTER,
         Qfloor (inject_Z 1000 / (10 # 1)))].
Proof.
  split; [lia|].
  exact (limit_setters_divide_by_scale AVR8 1000 (Sim.state [])
           ltac:(lia)).
Defined.

(** ** Bus transactions per call *)

(** C4, as stated, fails: [enableOverCurrentLimitAlert] issues four bus
transfers, among them two register writes, and [readAlertLimitRegister]
makes two register reads. *)
Lemma one_transaction_per_call_fails :
  let ev := events (exec ILP32 (OpEnableOverCurrentLimitAlert 1000)
                         (Sim.state [])) in
  let ev' := events (exec ILP32 OpReadAlertLimitRegister (Sim.state [])) in
  List.length (transactions ev) <> 1%nat
  /\ ~ (reg_reads ev <= 1 /\ reg_writes ev <= 1)%nat
  /\ ~ (reg_reads ev' <= 1 /\ reg_writes ev' <= 1)%nat.
Proof.
  cbv zeta.
  assert (E : transactions
                (events (exec ILP32 (OpEnableOverCurrentLimitAlert 1000)
                              (Sim.state [])))
              = [TxWrite 0x40 [6]; TxRead 0x40 2; TxWrite 0x40 [7; 3; 32];
                 TxWrite 0x40 [6; 128; 0]]) by (vm_compute; reflexivity).
  assert (E' : transactions
                 (events (exec ILP32 OpReadAlertLimitRegister (Sim.state [])))
               = [TxWrite 0x40 [6]; TxRead 0x40 2; TxWrite 0x40 [7];
                  TxRead 0x40 2]) by (vm_compute; reflexivity).
  unfold reg_reads, reg_writes. rewrite E, E'. cbn.
  repeat split; intros; lia.
Qed.

(** C4, amended.  Every public method other than [findDevices] makes a
fixed number of register accesses, given by [bus_cost]: a register read is
two bus transfers (the register pointer, then the two-byte request) and a
register write is one.  The getters make one register read,
[readAlertLimitRegister] two; the limit setters, the raw register writes,
[reset] and [begin] make one register write; the single-field setters make
one read and one write; the alert-enable methods make one read and two
writes; [setAddress] and [getAddress] make none.  No method makes more than
two reads or two writes. *)
Theorem accessor_bus_cost
  {W : Type} {bus : WireBus W} (T : Target) (op : Op) (s : State W) :
  let ev := events (exec T op s) in
  reg_reads ev = fst (bus_cost op)
  /\ reg_writes ev = snd (bus_cost op)
  /\ List.length (transactions ev)
     = (2 * fst (bus_cost op) + snd (bus_cost op))%nat
  /\ (reg_reads ev <= 2)%nat
  /\ (reg_writes ev <= 2)%nat.
Proof.
  cbv zeta. unfold reg_reads, reg_writes, transactions.
  destruct op; cbn; unfold wire_init_once;
    repeat match goal with
           | |- context [if ?c then _ else _] => destruct c; cbn
           end;
    repeat split; lia.
Qed.

(** ** Persistent state *)

(** C8, as stated, fails: the driver keeps state outside the object.  The
function-static flag of [begin] changes on the first call, and two states
with the same object and the same bus that differ in the flag make
different bus calls. *)
Lemma begin_keeps_a_static_flag :
  wireInitialized (after (exec ILP32 OpBegin Sim.silent))
  <> wireInitialized Sim.silent
  /\ events (exec ILP32 OpBegin Sim.silent)
     <> events (exec ILP32 OpBegin
                     (mkState (obj Sim.silent) true (wire Sim.silent))).
Proof.
  split; vm_compute; intro H; discriminate H.
Qed.

(** C8, amended.  The persistent state of the driver is the object (the
address and the discovery buffer) and the function-static flag of [begin].
Every public method other than [setAddress] (and [findDevices]) leaves all
fields of the object unchanged, whatever the bus answers; [setAddress]
changes the address only; the flag is set by [begin] and changed by no other
method. *)
Theorem only_setAddress_changes_the_object
  {W : Type} {bus : WireBus W} (T : Target) (op : Op) (s : State W) :
  obj (after (exec T op s))
  = match op with
    | OpSetAddress a =>
        mkINA260 (u8 a) (devices (obj s)) (deviceCount (obj s))
    | _ => obj s
    end
  /\ wireInitialized (after (exec T op s))
     = match op with
       | OpBegin => true
       | _ => wireInitialized s
       end.
Proof.
  destruct op; cbn; unfold wire_init_once;
    repeat match goal with
           | |- context [if ?c then _ else _] => destruct c eqn:?; cbn
           end;
    split; congruence.
Qed.

(** ** Failed reads *)

Section FailedReads.
Context {W : Type} {bus : WireBus W}.
Variable T : Target.

Lemma readRegister_short_value (reg : Z) (s : State W) :
  Wire_available (bus_reply (address (obj s)) reg (wire s)) <> 2 ->
  value (readRegister T reg s) = 0.
Proof.
  unfold readRegister, bus_reply. cbn. intro H.
  destruct (Z.eqb_spec
              (Wire_available
                 (Wire_requestFrom (address (obj s)) 2
                    (snd (Wire_endTransmission
                            (Wire_write reg
                               (Wire_beginTransmission (address (obj s))
                                                       (wire s)))))))
              2) as [E|E]; [contradiction|reflexivity].
Qed.

Lemma reads_short_values (regs : list Z) (s : State W) :
  reads_short T regs s ->
  match regs with
  | [] => True
  | r :: rs =>
      value (readRegister T r s) = 0
      /\ reads_short T rs (after (readRegister T r s))
  end.
Proof.
  destruct regs as [|r rs]; [trivial|]. cbn [reads_short].
  intros [H1 H2]. split; [|exact H2].
  apply readRegister_short_value. lia.
Qed.

Lemma reads_zero_values (regs : list Z) (s : State W) :
  reads_zero T regs s ->
  match regs with
  | [] => True
  | r :: rs =>
      value (readRegister T r s) = 0
      /\ reads_zero T rs (after (readRegister T r s))
  end.
Proof.
  destruct regs as [|r rs]; [trivial|]. cbn [reads_zero].
  intros (_ & H1 & H2). split; assumption.
Qed.

End FailedReads.

Ltac unfold_accessors :=
  unfold exec, as_ret, readConfigurationRegister, readCurrent,
    readBusVoltage, readPower, readMaskEnableRegister,
    readAlertLimitRegister, isMathOverFlow, isAlert, isAlertPolaritySet,
    isAlertLatchSet, getMode, isConversionRready, getCurrentConversionTime,
    getVoltageConversionTime, getAveragingCount, readManufactuerId,
    readDieId, readConfigurationRegister, readMaskEnableRegister, bind, ret;
  cbn [value after events].

(** C9.  When the bus answers a register read with fewer than two bytes,
[readRegister] returns 0; and every read accessor returns on failed reads
exactly what it returns when the reads succeed with the value 0, so that the
caller cannot tell the two apart. *)
Theorem failed_read_is_read_as_zero
  {W : Type} {bus : WireBus W} (T : Target)
  (op : Op) (regs : list Z) (s_fail s_zero : State W) :
  read_registers op = Some regs ->
  reads_short T regs s_fail ->
  reads_zero T regs s_zero ->
  value (exec T op s_fail) = value (exec T op s_zero)
  /\ (forall reg, op = OpReadRegister reg ->
                  value (exec T op s_fail) = RU16 0).
Proof.
  intros Hregs Hf Hz.
  destruct op; cbn [read_registers] in Hregs; try discriminate Hregs;
    injection Hregs as <-;
    apply reads_short_values in Hf as [Hf Hf'];
    apply reads_zero_values in Hz as [Hz Hz'];
    try (apply reads_short_values in Hf' as [Hf' _];
         apply reads_zero_values in Hz' as [Hz' _]).
  all: split; [|intros reg' E; try discriminate E].
  all: unfold_accessors; rewrite ?Hf, ?Hz; try reflexivity.
  change (get_field MaskEnableRegister.pol 0 =? 1) with false.
  cbv iota beta. cbn [value after events].
  rewrite Hf', Hz'. reflexivity.
Qed.

Lemma failed_read_is_read_as_zero_witness :
  read_registers OpReadAlertLimitRegister
  = Some [INA260_MASK_ENABLE_REGISTER; INA260_ALERT_LIMIT_REGISTER]
  /\ reads_short AVR8
       [INA260_MASK_ENABLE_REGISTER; INA260_ALERT_LIMIT_REGISTER] Sim.silent
  /\ reads_zero AVR8
       [INA260_MASK_ENABLE_REGISTER; INA260_ALERT_LIMIT_REGISTER]
       (Sim.state [])
  /\ value (exec AVR8 OpReadAlertLimitRegister Sim.silent)
     = value (exec AVR8 OpReadAlertLimitRegister (Sim.state [])).
Proof.
  assert (H1 : reads_short AVR8
                 [INA260_MASK_ENABLE_REGISTER; INA260_ALERT_LIMIT_REGISTER]
                 Sim.silent)
    by (vm_compute; repeat split; reflexivity).
  assert (H2 : reads_zero AVR8
                 [INA260_MASK_ENABLE_REGISTER; INA260_ALERT_LIMIT_REGISTER]
                 (Sim.state []))
    by (vm_compute; repeat split; reflexivity).
  split; [reflexivity|]. split; [exact H1|]. split; [exact H2|].
  exact (proj1 (failed_read_is_read_as_zero AVR8 OpReadAlertLimitRegister
                  [INA260_MASK_ENABLE_REGISTER; INA260_ALERT_LIMIT_REGISTER]
                  Sim.silent (Sim.state []) eq_refl H1 H2)).
Defined.

(** ** Device discovery *)

Lemma record_all_address (acks : list Z) :
  forall o, address (record_all acks o) = address o.
Proof.
  induction acks as [|a r IH]; intro o; [reflexivity|].
  cbn [record_all]. rewrite IH. reflexivity.
Qed.

Lemma record_all_count (acks : list Z) :
  forall o,
    deviceCount (record_all acks o)
    = deviceCount o + Z.of_nat (List.length acks).
Proof.
  induction acks as [|a r IH]; intro o.
  - cbn. lia.
  - cbn [record_all List.length]. rewrite IH. cbn [deviceCount]. lia.
Qed.

Lemma list_set_eq (v : Z) (l : list Z) :
  forall n, (n < List.length l)%nat ->
            list_set n v l = firstn n l ++ v :: skipn (S n) l.
Proof.
  induction l as [|h t IH]; intros n Hn; [cbn in Hn; lia|].
  destruct n as [|k]; [reflexivity|].
  cbn [list_set firstn skipn app]. f_equal.
  apply IH. cbn in Hn. lia.
Qed.

Lemma list_set_length (v : Z) (l : list Z) :
  forall n, List.length (list_set n v l) = List.length l.
Proof.
  induction l as [|h t IH]; intro n; [destruct n; reflexivity|].
  destruct n; cbn; [reflexivity|]. rewrite IH. reflexivity.
Qed.

(** The discovery buffer after recording [acks]: the entries before index
[deviceCount] and after the recorded ones are kept. *)
Lemma record_all_devices (acks : list Z) :
  forall o,
    0 <= deviceCount o ->
    (Z.to_nat (deviceCount o) + List.length acks
     <= List.length (devices o))%nat ->
    devices (record_all acks o)
    = firstn (Z.to_nat (deviceCount o)) (devices o)
      ++ acks
      ++ skipn (Z.to_nat (deviceCount o) + List.length acks) (devices o).
Proof.
  induction acks as [|a r IH]; intros o Hd Hl.
  - cbn [record_all List.length app]. rewrite Nat.add_0_r.
    symmetry. apply firstn_skipn.
  - cbn [record_all List.length] in *.
    set (d := Z.to_nat (deviceCount o)) in *.
    rewrite IH; cbn [deviceCount devices].
    + replace (Z.to_nat (deviceCount o + 1)) with (S d) by lia.
      rewrite list_set_eq by lia.
      assert (Hf : List.length (firstn d (devices o)) = d)
        by (apply firstn_length_le; lia).
      rewrite firstn_app, Hf.
      rewrite (firstn_all2 (n := S d)) by lia.
      replace (S d - d)%nat with 1%nat by lia. cbn [firstn].
      rewrite skipn_app, Hf.
      rewrite (skipn_all2 (n := (S d + List.length r)%nat)) by lia.
      replace (S d + List.length r - d)%nat with (S (List.length r)) by lia.
      cbn [app]. rewrite skipn_cons, skipn_skipn.
      rewrite <- app_assoc. cbn [app].
      replace (List.length r + S d)%nat with (d + S (List.length r))%nat
        by lia.
      reflexivity.
    + lia.
    + rewrite list_set_length. lia.
Qed.

Section Discovery.
Context {W : Type} {bus : WireBus W}.
Variable T : Target.

Lemma state_eta (s : State W) :
  mkState (obj s) (wireInitialized s) (wire s) = s.
Proof. destruct s; reflexivity. Qed.

Lemma findDevices_from_spec (n : nat) :
  forall (a : Z) (fuel : nat) (s : State W),
    0 <= a -> a + Z.of_nat n = 127 -> (n < fuel)%nat ->
    let acks := fst (bus_scan n a (wire s)) in
    (in_bounds acks (obj s) ->
     findDevices_from fuel a s
     = (Returned (mkState (record_all acks (obj s)) (wireInitialized s)
                          (snd (bus_scan n a (wire s)))),
        probes (addresses_from n a)))
    /\ (~ in_bounds acks (obj s) ->
        fst (findDevices_from fuel a s) = Undefined).
Proof.
  induction n as [|k IH]; intros a fuel s Ha Hn Hfuel; cbv zeta.
  - destruct fuel as [|f]; [lia|]. cbn [findDevices_from bus_scan fst snd].
    replace (a <? 127) with false by (symmetry; apply Z.ltb_ge; lia).
    split.
    + intros _. cbn. rewrite state_eta. reflexivity.
    + intro H. exfalso. apply H. left. reflexivity.
  - destruct fuel as [|f]; [lia|].
    cbn [findDevices_from bus_scan fst snd addresses_from].
    replace (a <? 127) with true by (symmetry; apply Z.ltb_lt; lia).
    replace (u8 (a + 1)) with (a + 1) by (unfold u8; rewrite Z.mod_small; lia).
    unfold probe, bind. cbn [value after events beginTransmission
                             endTransmission ret set_wire wire obj
                             wireInitialized app].
    unfold set_wire. cbn [obj wireInitialized wire].
    set (r := Wire_endTransmission (Wire_beginTransmission a (wire s))).
    destruct (fst r =? 0) eqn:Eack.
    + (* acknowledged *)
      unfold record_device, array16_store.
      destruct ((0 <=? deviceCount (obj s)) && (deviceCount (obj s) <? 16))
        eqn:Eb.
      * apply andb_true_iff in Eb as [Eb1 Eb2].
        apply Z.leb_le in Eb1. apply Z.ltb_lt in Eb2.
        specialize (IH (a + 1) f
                       (set_obj (mkINA260 (address (obj s))
                                   (list_set (Z.to_nat (deviceCount (obj s)))
                                             a (devices (obj s)))
                                   (deviceCount (obj s) + 1))
                                (mkState (obj s) (wireInitialized s) (snd r)))
                       ltac:(lia) ltac:(lia) ltac:(lia)).
        cbv zeta in IH. cbn [set_obj wire obj wireInitialized] in IH.
        destruct IH as [IH1 IH2]. unfold in_bounds in *.
        cbn [deviceCount List.length] in *.
        split.
        -- intros [Habs|[H1 H2]]; [discriminate Habs|].
           rewrite IH1.
           ++ cbn [fst snd probes flat_map app record_all]. reflexivity.
           ++ destruct (fst (bus_scan k (a + 1) (snd r))) as [|x l];
                [left; reflexivity|right; cbn [List.length] in *; lia].
        -- intro Hn'. cbn [fst]. apply IH2. intros [E|[H1 H2]]; apply Hn'; right.
           ++ rewrite E. cbn [List.length]. lia.
           ++ lia.
      * split.
        -- intros [Habs|[H1 H2]]; [discriminate Habs|]. exfalso.
           apply andb_false_iff in Eb as [Eb|Eb];
             [apply Z.leb_gt in Eb | apply Z.ltb_ge in Eb];
             cbn [List.length] in H2; lia.
        -- intros _. reflexivity.
    + (* not acknowledged *)
      specialize (IH (a + 1) f (mkState (obj s) (wireInitialized s) (snd r))
                     ltac:(lia) ltac:(lia) ltac:(lia)).
      cbv zeta in IH. cbn [wire obj wireInitialized] in IH.
      destruct IH as [IH1 IH2]. split.
      * intro H. rewrite IH1 by exact H. reflexivity.
      * intro H. cbn [fst]. apply IH2, H.
Qed.

End Discovery.

Lemma in_bounds_dec (acks : list Z) (o : INA260) :
  in_bounds acks o \/ ~ in_bounds acks o.
Proof.
  unfold in_bounds. destruct acks as [|a r]; [left; left; reflexivity|].
  destruct (Z_le_dec 0 (deviceCount o));
    destruct (Z_le_dec (deviceCount o + Z.of_nat (List.length (a :: r))) 16);
    first [ left; right; split; assumption
          | right; intros [E|[H1 H2]]; [discriminate E|contradiction] ].
Qed.

Lemma probes_transactions (l : list Z) :
  transactions (probes l) = map (fun a => TxWrite a []) l.
Proof.
  unfold transactions. induction l as [|a r IH]; [reflexivity|].
  cbn [probes flat_map app txns_from map]. f_equal. exact IH.
Qed.

Lemma probes_probed (l : list Z) : probed (probes l) = l.
Proof.
  induction l as [|a r IH]; [reflexivity|].
  cbn [probes flat_map app probed]. f_equal. exact IH.
Qed.

Lemma addresses_from_spec (n : nat) :
  forall a x, In x (addresses_from n a) <-> a <= x < a + Z.of_nat n.
Proof.
  induction n as [|k IH]; intros a x.
  - cbn. lia.
  - cbn [addresses_from In]. rewrite IH. lia.
Qed.

Lemma bus_scan_range {W : Type} {bus : WireBus W} (n : nat) :
  forall a (w : W) x,
    In x (fst (bus_scan n a w)) -> a <= x < a + Z.of_nat n.
Proof.
  induction n as [|k IH]; intros a w x; cbn [bus_scan fst].
  - intros [].
  - destruct (fst (Wire_endTransmission (Wire_beginTransmission a w)) =? 0).
    + intros [<-|H]; [lia|]. apply IH in H. lia.
    + intro H. apply IH in H. lia.
Qed.

(** C7, as stated, fails: the scan does not cover the whole 7-bit address
space.  Addresses 0 and 127 are never probed, so a device that would
acknowledge there is not recorded. *)
Lemma findDevices_skips_0_and_127 :
  let s := mkState (Sim.object 0x40) false
                   (Sim.bus_with [0; 0x40; 127] 0x40 []) in
  Sim.acknowledges 0 (wire s) = true
  /\ Sim.acknowledges 127 (wire s) = true
  /\ existsb (Z.eqb 0) (probed (snd (findDevices s))) = false
  /\ existsb (Z.eqb 127) (probed (snd (findDevices s))) = false
  /\ match fst (findDevices s) with
     | Returned s' =>
         deviceCount (obj s') = 1
         /\ devices (obj s') = 0x40 :: repeat 0 15
     | _ => False
     end.
Proof.
  vm_compute. repeat split; reflexivity.
Qed.

(** C7, amended.  [findDevices] probes the addresses 1 to 126 (not 0 and
not 127), each with one empty transmission, in increasing order.  Each
address that acknowledges is stored at index [deviceCount] of [devices],
and [deviceCount] is incremented; an address that does not acknowledge
changes neither.  (Stated where the stores stay inside the array.) *)
Theorem findDevices_scans_1_to_126
  {W : Type} {bus : WireBus W} (s : State W) :
  let acks := fst (bus_scan 126 1 (wire s)) in
  let dc := Z.to_nat (deviceCount (obj s)) in
  0 <= deviceCount (obj s) ->
  deviceCount (obj s) + Z.of_nat (List.length acks) <= 16 ->
  List.length (devices (obj s)) = 16%nat ->
  exists s' : State W,
    findDevices s = (Returned s', probes (addresses_from 126 1))
    /\ transactions (snd (findDevices s))
       = map (fun a => TxWrite a []) (addresses_from 126 1)
    /\ (forall x, In x (addresses_from 126 1) <-> 1 <= x <= 126)
    /\ obj s' = record_all acks (obj s)
    /\ deviceCount (obj s')
       = deviceCount (obj s) + Z.of_nat (List.length acks)
    /\ devices (obj s')
       = firstn dc (devices (obj s)) ++ acks
         ++ skipn (dc + List.length acks) (devices (obj s))
    /\ address (obj s') = address (obj s)
    /\ wireInitialized s' = wireInitialized s
    /\ wire s' = snd (bus_scan 126 1 (wire s)).
Proof.
  cbv zeta. intros Hd Hb Hl.
  destruct (findDevices_from_spec 126 1 256 s ltac:(lia) ltac:(lia)
              ltac:(lia)) as [H _].
  cbv zeta in H. specialize (H (or_intror (conj Hd Hb))).
  unfold findDevices. rewrite H.
  eexists. split; [reflexivity|]. cbn [snd obj wireInitialized wire].
  split; [apply probes_transactions|].
  split; [intro x; rewrite addresses_from_spec; lia|].
  split; [reflexivity|].
  split; [apply record_all_count|].
  split; [apply record_all_devices; lia|].
  split; [apply record_all_address|].
  split; reflexivity.
Qed.

Lemma findDevices_scans_1_to_126_witness :
  let s := mkState (Sim.object 0x40) false
                   (Sim.bus_with [0x40; 0x41] 0x40 []) in
  0 <= deviceCount (obj s)
  /\ deviceCount (obj s)
     + Z.of_nat (List.length (fst (bus_scan 126 1 (wire s)))) <= 16
  /\ List.length (devices (obj s)) = 16%nat
  /\ exists s' : State Sim.Bus,
       findDevices s = (Returned s', probes (addresses_from 126 1))
       /\ transactions (snd (findDevices s))
          = map (fun a => TxWrite a []) (addresses_from 126 1)
       /\ (forall x, In x (addresses_from 126 1) <-> 1 <= x <= 126)
       /\ obj s' = record_all (fst (bus_scan 126 1 (wire s))) (obj s)
       /\ deviceCount (obj s')
          = deviceCount (obj s)
            + Z.of_nat (List.length (fst (bus_scan 126 1 (wire s))))
       /\ devices (obj s')
          = firstn (Z.to_nat (deviceCount (obj s))) (devices (obj s))
            ++ fst (bus_scan 126 1 (wire s))
            ++ skipn (Z.to_nat (deviceCount (obj s))
                      + List.length (fst (bus_scan 126 1 (wire s))))
                     (devices (obj s))
       /\ address (obj s') = address (obj s)
       /\ wireInitialized s' = wireInitialized s
       /\ wire s' = snd (bus_scan 126 1 (wire s)).
Proof.
  cbv zeta.
  assert (H1 : 0 <= deviceCount
                      (obj (mkState (Sim.object 0x40) false
                              (Sim.bus_with [0x40; 0x41] 0x40 []))))
    by (vm_compute; discriminate).
  assert (H2 : deviceCount
                 (obj (mkState (Sim.object 0x40) false
                         (Sim.bus_with [0x40; 0x41] 0x40 [])))
               + Z.of_nat
                   (List.length
                      (fst (bus_scan 126 1
                              (wire (mkState (Sim.object 0x40) false
                                       (Sim.bus_with [0x40; 0x41] 0x40
                                                     []))))))
               <= 16)
    by (vm_compute; discriminate).
  assert (H3 : List.length
                 (devices
                    (obj (mkState (Sim.object 0x40) false
                            (Sim.bus_with [0x40; 0x41] 0x40 []))))
               = 16%nat)
    by reflexivity.
  split; [exact H1|]. split; [exact H2|]. split; [exact H3|].
  exact (findDevices_scans_1_to_126
           (mkState (Sim.object 0x40) false
                    (Sim.bus_with [0x40; 0x41] 0x40 [])) H1 H2 H3).
Defined.

(** C10.  The constructor leaves [deviceCount] as its storage holds it, and
[findDevices] stores each acknowledging address at index [deviceCount]
without checking it against the 16 elements of [devices].  Hence a call
makes a store outside the array exactly when some address acknowledges and
[deviceCount] is negative or [deviceCount] plus the number of acknowledging
addresses exceeds 16; in particular, when an address acknowledges, the
stores are in bounds only if [deviceCount] plus that number is at most
16. *)
Theorem findDevices_store_bounds
  {W : Type} {bus : WireBus W} (s : State W) :
  let acks := fst (bus_scan 126 1 (wire s)) in
  let n := Z.of_nat (List.length acks) in
  deviceCount (INA260_new (obj s)) = deviceCount (obj s)
  /\ (fst (findDevices s) = Undefined
      <-> acks <> []
          /\ (deviceCount (obj s) < 0 \/ 16 < deviceCount (obj s) + n))
  /\ (fst (findDevices s) <> Undefined ->
      acks <> [] -> 0 <= deviceCount (obj s) /\ deviceCount (obj s) + n <= 16)
  /\ fst (findDevices s) <> Exhausted.
Proof.
  cbv zeta.
  destruct (findDevices_from_spec 126 1 256 s ltac:(lia) ltac:(lia)
              ltac:(lia)) as [Hin Hout].
  cbv zeta in Hin, Hout. unfold findDevices.
  set (r := findDevices_from 256 1 s) in *.
  set (acks := fst (bus_scan 126 1 (wire s))) in *.
  assert (Hiff : fst r = Undefined <-> ~ in_bounds acks (obj s)).
  { split; [|exact Hout]. intros HU Hb.
    rewrite (Hin Hb) in HU. discriminate HU. }
  split; [reflexivity|].
  split; [|split].
  - rewrite Hiff. unfold in_bounds. split.
    + intro H. split.
      * intro E. apply H. left. exact E.
      * destruct (Z_lt_dec (deviceCount (obj s)) 0); [left; assumption|].
        right. destruct (Z_lt_dec 16 (deviceCount (obj s)
                                      + Z.of_nat (List.length acks)));
          [assumption|]. exfalso. apply H. right. lia.
    + intros [Hne Hor] [E|[H1 H2]]; [contradiction|lia].
  - intros HU Hne.
    destruct (in_bounds_dec acks (obj s)) as [[E|Hb]|Hb].
    + contradiction.
    + exact Hb.
    + exfalso. apply HU, Hiff, Hb.
  - destruct (in_bounds_dec acks (obj s)) as [Hb|Hb].
    + rewrite (Hin Hb). discriminate.
    + rewrite (Hout Hb). discriminate.
Qed.

(** ** Measurements *)

(** C1 at the input where the code departs from it.  With a 16-bit [int]
the product [uint16_t * 10] of [readPower] wraps modulo 2^16: for the raw
power 6554 (65.54 W) the method returns 4 and not 65540.  With a 32-bit
[int] it returns 65540. *)
Theorem readPower_wraps_with_16_bit_int :
  let s := Sim.state [(INA260_POWER_REGISTER, 6554)] in
  value (readRegister AVR8 INA260_POWER_REGISTER s) = 6554
  /\ SFvalue (value (readPower AVR8 s)) (4 # 1)
  /\ ~ SFvalue (value (readPower AVR8 s)) (inject_Z 6554 * (10 # 1))
  /\ SFvalue (value (readPower ILP32 s)) (inject_Z 6554 * (10 # 1)).
Proof.
  cbv zeta. split; [vm_compute; reflexivity|].
  split; [apply SFis_value; vm_compute; reflexivity|].
  split; [|apply SFis_value; vm_compute; reflexivity].
  intros (v & E & Hq). vm_compute in E. injection E as <-.
  vm_compute in Hq. discriminate Hq.
Qed.

(** C2 at the input where the code departs from it.  With a 16-bit [int]
and the over-power flag set, [readAlertLimitRegister] returns the raw limit
times 10 modulo 2^16: for the raw limit 6554 it returns 4 and not 65540. *)
Theorem readAlertLimitRegister_wraps_with_16_bit_int :
  let s := Sim.state [(INA260_MASK_ENABLE_REGISTER, 0x0800);
                      (INA260_ALERT_LIMIT_REGISTER, 6554)] in
  get_field MaskEnableRegister.pol (value (readMaskEnableRegister AVR8 s)) = 1
  /\ value (readRegister AVR8 INA260_ALERT_LIMIT_REGISTER
              (after (readMaskEnableRegister AVR8 s))) = 6554
  /\ SFvalue (value (readAlertLimitRegister AVR8 s)) (4 # 1)
  /\ ~ SFvalue (value (readAlertLimitRegister AVR8 s))
               (inject_Z 6554 * (10 # 1))
  /\ SFvalue (value (readAlertLimitRegister ILP32 s))
             (inject_Z 6554 * (10 # 1)).
Proof.
  cbv zeta. split; [vm_compute; reflexivity|].
  split; [vm_compute; reflexivity|].
  split; [apply SFis_value; vm_compute; reflexivity|].
  split; [|apply SFis_value; vm_compute; reflexivity].
  intros (v & E & Hq). vm_compute in E. injection E as <-.
  vm_compute in Hq. discriminate Hq.
Qed.

(** ** Further properties of the measurements *)

(** X1.  On both targets [readCurrent] and [readBusVoltage] return exactly
1.25 times the value [readRegister] returned: neither the product in
[double] nor its conversion to [float] rounds. *)
Theorem readCurrent_readBusVoltage_exact
  {W : Type} {bus : WireBus W} (T : Target) (s : State W) :
  SFvalue (value (readCurrent T s))
          (inject_Z (value (readRegister T INA260_CURRENT_REGISTER s))
           * (5 # 4))
  /\ SFvalue (value (readBusVoltage T s))
             (inject_Z (value (readRegister T INA260_VOLTAGE_REGISTER s))
              * (5 # 4)).
Proof.
  unfold readCurrent, readBusVoltage, bind. cbn [value after ret].
  split; apply mul_1_25_float_value, readRegister_range.
Qed.

Lemma mul_10_small (T : Target) (x : Z) :
  0 <= x <= 6553 -> mul_10 T x = x * 10.
Proof.
  intro H. destruct T; unfold mul_10, arith16; cbn [int_bits Z.eqb];
    [apply Z.mod_small; lia | reflexivity].
Qed.

(** X2.  [readPower] returns exactly the integer product of the register
value by 10 as the target computes it: the product itself where [int] has
32 bits, the product modulo 2^16 where it has 16.  On both targets the
result is 10 times the register value as long as that value is at most 6553
(65.53 W). *)
Theorem readPower_value
  {W : Type} {bus : WireBus W} (T : Target) (s : State W) :
  let raw := value (readRegister T INA260_POWER_REGISTER s) in
  SFvalue (value (readPower T s))
          (inject_Z (match T with
                     | AVR8 => (raw * 10) mod 65536
                     | ILP32 => raw * 10
                     end))
  /\ (raw <= 6553 -> SFvalue (value (readPower T s)) (inject_Z (raw * 10))).
Proof.
  cbv zeta.
  pose proof (readRegister_range T INA260_POWER_REGISTER s) as Hr.
  unfold readPower, bind. cbn [value after ret].
  set (raw := value (readRegister T INA260_POWER_REGISTER s)) in *.
  pose proof (mul_10_float_value T raw Hr) as H.
  split; [destruct T; exact H|].
  intro Hs. rewrite mul_10_small in H |- * by lia. exact H.
Qed.

Lemma readPower_value_witness :
  value (readRegister AVR8 INA260_POWER_REGISTER
           (Sim.state [(INA260_POWER_REGISTER, 1200)])) <= 6553
  /\ SFvalue (value (readPower AVR8
                       (Sim.state [(INA260_POWER_REGISTER, 1200)])))
             (inject_Z
                (value (readRegister AVR8 INA260_POWER_REGISTER
                          (Sim.state [(INA260_POWER_REGISTER, 1200)]))
                 * 10)).
Proof.
  assert (H : value (readRegister AVR8 INA260_POWER_REGISTER
                       (Sim.state [(INA260_POWER_REGISTER, 1200)])) <= 6553)
    by (vm_compute; discriminate).
  split; [exact H|].
  exact (proj2 (readPower_value AVR8
                  (Sim.state [(INA260_POWER_REGISTER, 1200)])) H).
Defined.

(** X3.  [readAlertLimitRegister] makes its second read after the
Mask/Enable read and scales by what the [pol] flag of the value just read
says: when the flag is clear the result is exactly 1.25 times the limit
register on both targets; when it is set the result is the integer product
by 10 as the target computes it, which is 10 times the limit register
whenever that is at most 6553, and always where [int] has 32 bits. *)
Theorem readAlertLimitRegister_value
  {W : Type} {bus : WireBus W} (T : Target) (s : State W) :
  let me := readMaskEnableRegister T s in
  let raw := value (readRegister T INA260_ALERT_LIMIT_REGISTER (after me)) in
  (get_field MaskEnableRegister.pol (value me) = 0 ->
   SFvalue (value (readAlertLimitRegister T s)) (inject_Z raw * (5 # 4)))
  /\ (get_field MaskEnableRegister.pol (value me) = 1 ->
      SFvalue (value (readAlertLimitRegister T s))
              (inject_Z (match T with
                         | AVR8 => (raw * 10) mod 65536
                         | ILP32 => raw * 10
                         end))
      /\ (raw <= 6553 ->
          SFvalue (value (readAlertLimitRegister T s)) (inject_Z (raw * 10)))).
Proof.
  cbv zeta.
  pose proof (readRegister_range T INA260_ALERT_LIMIT_REGISTER
                (after (readMaskEnableRegister T s))) as Hr.
  unfold readAlertLimitRegister, bind. cbn [value after ret].
  set (me := readMaskEnableRegister T s) in *.
  set (raw := value (readRegister T INA260_ALERT_LIMIT_REGISTER (after me)))
    in *.
  split.
  - intro Hp. rewrite Hp. change (0 =? 1) with false. cbv iota beta.
    cbn [value]. fold raw. apply mul_1_25_value, Hr.
  - intro Hp. rewrite Hp. change (1 =? 1) with true. cbv iota beta.
    cbn [value]. fold raw.
    pose proof (mul_10_double_value T raw Hr) as H.
    split; [destruct T; exact H|].
    intro Hs. rewrite mul_10_small in H |- * by lia. exact H.
Qed.

(** X4.  [readCurrent] never returns a negative current: its result lies
between 0 and 81918.75 mA.  The current register is signed (INA260.h), but
a register value with the sign bit set, which the chip uses for a reverse
current, is returned as a current of at least 40960 mA. *)
Theorem readCurrent_is_never_negative
  {W : Type} {bus : WireBus W} (T : Target) (s : State W) :
  exists q : Q,
    SF2Q (value (readCurrent T s)) = Some q
    /\ (0 <= q)%Q /\ (q <= 8191875 # 100)%Q
    /\ (32768 <= value (readRegister T INA260_CURRENT_REGISTER s) ->
        (40960 # 1 <= q)%Q).
Proof.
  pose proof (readRegister_range T INA260_CURRENT_REGISTER s) as Hr.
  destruct (mul_1_25_float_value T _ Hr) as (q & E & Hq).
  exists q. split; [exact E|]. rewrite Hq.
  set (raw := value (readRegister T INA260_CURRENT_REGISTER s)) in *.
  unfold Qle, Qmult, inject_Z. cbn [Qnum Qden].
  repeat split; intros; lia.
Qed.

(** ** Further properties of the raw register access *)

Lemma lor_high_low (msb lsb : Z) :
  0 <= msb -> 0 <= lsb < 256 ->
  Z.lor (Z.shiftl msb 8) lsb = msb * 256 + lsb.
Proof.
  intros Hm Hl.
  assert (E : Z.land (Z.shiftl msb 8) lsb = 0).
  { apply Z.bits_inj'. intros n Hn.
    rewrite Z.land_spec, Z.bits_0, Z.shiftl_spec by lia.
    destruct (Z_lt_le_dec n 8) as [H|H].
    - rewrite Z.testbit_neg_r by lia. reflexivity.
    - replace lsb with (lsb mod 2 ^ 8) by (apply Z.mod_small; lia).
      rewrite Z.mod_pow2_bits_high by lia. apply andb_false_r. }
  rewrite <- Z.lxor_lor, <- Z.add_nocarry_lxor by exact E.
  rewrite Z.shiftl_mul_pow2 by lia. reflexivity.
Qed.

Lemma decode_bytes (T : Target) (msb lsb : Z) :
  0 <= msb < 256 -> 0 <= lsb < 256 ->
  u16 (arith16 T (Z.lor (arith16 T (Z.shiftl (u16 msb) 8)) (u16 lsb)))
  = msb * 256 + lsb.
Proof.
  intros Hm Hl. rewrite (u16_small msb), (u16_small lsb) by lia.
  assert (E : arith16 T (Z.shiftl msb 8) = Z.shiftl msb 8).
  { unfold arith16. destruct (int_bits T =? 16); [|reflexivity].
    rewrite Z.shiftl_mul_pow2 by lia. change (2 ^ 8) with 256.
    apply Z.mod_small. lia. }
  rewrite E, lor_high_low by lia.
  unfold arith16, u16.
  destruct (int_bits T =? 16);
    repeat rewrite (Z.mod_small (msb * 256 + lsb) 65536) by lia;
    reflexivity.
Qed.

Lemma readRegister_decode
  {W : Type} {bus : WireBus W} (T : Target) (reg : Z) (s : State W) :
  let w := bus_reply (address (obj s)) reg (wire s) in
  Wire_available w = 2 ->
  0 <= fst (Wire_read w) < 256 ->
  0 <= fst (Wire_read (snd (Wire_read w))) < 256 ->
  value (readRegister T reg s)
  = fst (Wire_read w) * 256 + fst (Wire_read (snd (Wire_read w))).
Proof.
  cbv zeta. unfold readRegister, bus_reply. cbn. intros Ha Hm Hl.
  rewrite Ha. cbn. apply decode_bytes; assumption.
Qed.

(** X5.  When the bus holds two bytes after the request, [readRegister]
returns the first byte received as the high byte and the second as the low
byte of its result, on both targets. *)
Theorem readRegister_is_big_endian
  {W : Type} {bus : WireBus W} (T : Target) (reg : Z) (s : State W) :
  let w := bus_reply (address (obj s)) reg (wire s) in
  let msb := fst (Wire_read w) in
  let lsb := fst (Wire_read (snd (Wire_read w))) in
  Wire_available w = 2 ->
  0 <= msb < 256 -> 0 <= lsb < 256 ->
  value (readRegister T reg s) = msb * 256 + lsb.
Proof. cbv zeta. apply readRegister_decode. Qed.

Lemma readRegister_is_big_endian_witness :
  let s := Sim.state [(INA260_DIE_ID_REGISTER, 0x2270)] in
  let w := bus_reply (address (obj s)) INA260_DIE_ID_REGISTER (wire s) in
  Wire_available w = 2
  /\ 0 <= fst (Wire_read w) < 256
  /\ 0 <= fst (Wire_read (snd (Wire_read w))) < 256
  /\ value (readRegister AVR8 INA260_DIE_ID_REGISTER s)
     = fst (Wire_read w) * 256 + fst (Wire_read (snd (Wire_read w))).
Proof.
  cbv zeta.
  assert (H1 : Wire_available
                 (bus_reply
                    (address (obj (Sim.state [(INA260_DIE_ID_REGISTER,
                                               0x2270)])))
                    INA260_DIE_ID_REGISTER
                    (wire (Sim.state [(INA260_DIE_ID_REGISTER, 0x2270)])))
               = 2) by (vm_compute; reflexivity).
  assert (H2 : 0 <= fst (Wire_read
                 (bus_reply
                    (address (obj (Sim.state [(INA260_DIE_ID_REGISTER,
                                               0x2270)])))
                    INA260_DIE_ID_REGISTER
                    (wire (Sim.state [(INA260_DIE_ID_REGISTER, 0x2270)]))))
               < 256) by (vm_compute; split; [discriminate|reflexivity]).
  assert (H3 : 0 <= fst (Wire_read (snd (Wire_read
                 (bus_reply
                    (address (obj (Sim.state [(INA260_DIE_ID_REGISTER,
                                               0x2270)])))
                    INA260_DIE_ID_REGISTER
                    (wire (Sim.state [(INA260_DIE_ID_REGISTER, 0x2270)]))))))
               < 256) by (vm_compute; split; [discriminate|reflexivity]).
  split; [exact H1|]. split; [exact H2|]. split; [exact H3|].
  exact (readRegister_is_big_endian AVR8 INA260_DIE_ID_REGISTER
           (Sim.state [(INA260_DIE_ID_REGISTER, 0x2270)]) H1 H2 H3).
Defined.

Lemma high_low_bytes (v : Z) :
  Z.land (Z.shiftr v 8) 0xFF = u16 v / 256
  /\ Z.land v 0xFF = u16 v mod 256.
Proof.
  change 0xFF with (Z.ones 8).
  rewrite !Z.land_ones, Z.shiftr_div_pow2 by lia.
  change (2 ^ 8) with 256. unfold u16.
  pose proof (Z.div_mod v 65536 ltac:(lia)) as E.
  pose proof (Z.mod_pos_bound v 65536 ltac:(lia)) as B.
  set (q := v / 65536) in *. set (r := v mod 65536) in *.
  pose proof (Z.div_mod r 256 ltac:(lia)) as Er.
  pose proof (Z.mod_pos_bound r 256 ltac:(lia)) as Br.
  assert (0 <= r / 256 < 256).
  { split; [apply Z.div_pos; lia|apply Z.div_lt_upper_bound; lia]. }
  split.
  - assert (Hd : v / 256 = 256 * q + r / 256).
    { symmetry. apply (Z.div_unique _ _ _ (r mod 256)); lia. }
    rewrite Hd. symmetry. apply (Z.mod_unique _ _ q); lia.
  - symmetry. apply (Z.mod_unique _ _ (256 * q + r / 256)); lia.
Qed.

(** X6.  [writeRegister] sends one transmission of three bytes, the
register followed by the high and the low byte of the value taken modulo
2^16, and returns true exactly when [endTransmission] reports status 0.
The byte order is the one [readRegister] decodes: a read answered with the
two data bytes just sent returns the value written. *)
Theorem writeRegister_readRegister_round_trip
  {W : Type} {bus : WireBus W} (T : Target)
  (reg v : Z) (s : State W) (reg' : Z) (s' : State W) :
  let w' := bus_reply (address (obj s')) reg' (wire s') in
  transactions (events (writeRegister reg v s))
  = [TxWrite (address (obj s)) [reg; u16 v / 256; u16 v mod 256]]
  /\ value (writeRegister reg v s)
     = (fst (Wire_endTransmission
               (Wire_write (Z.land v 0xFF)
                  (Wire_write (Z.land (Z.shiftr v 8) 0xFF)
                     (Wire_write reg
                        (Wire_beginTransmission (address (obj s))
                                                (wire s))))))
        =? 0)
  /\ (Wire_available w' = 2 ->
      fst (Wire_read w') = u16 v / 256 ->
      fst (Wire_read (snd (Wire_read w'))) = u16 v mod 256 ->
      value (readRegister T reg' s') = u16 v).
Proof.
  cbv zeta. destruct (high_low_bytes v) as [Hh Hl].
  split; [rewrite writeRegister_transactions, Hh, Hl; reflexivity|].
  split; [reflexivity|].
  intros Ha Hm Hb.
  pose proof (u16_range v) as Hr.
  rewrite (readRegister_decode T reg' s' Ha).
  - rewrite Hm, Hb. pose proof (Z.div_mod (u16 v) 256 ltac:(lia)). lia.
  - rewrite Hm. split; [apply Z.div_pos; lia|].
    apply Z.div_lt_upper_bound; lia.
  - rewrite Hb. apply Z.mod_pos_bound. lia.
Qed.

Lemma writeRegister_readRegister_round_trip_witness :
  let s := Sim.state [] in
  let s' := after (writeRegister INA260_ALERT_LIMIT_REGISTER 0x1234 s) in
  let w' := bus_reply (address (obj s')) INA260_ALERT_LIMIT_REGISTER
                      (wire s') in
  Wire_available w' = 2
  /\ fst (Wire_read w') = u16 0x1234 / 256
  /\ fst (Wire_read (snd (Wire_read w'))) = u16 0x1234 mod 256
  /\ value (readRegister ILP32 INA260_ALERT_LIMIT_REGISTER s') = u16 0x1234.
Proof.
  cbv zeta.
  set (s' := after (writeRegister INA260_ALERT_LIMIT_REGISTER 0x1234
                                  (Sim.state []))).
  assert (H1 : Wire_available
                 (bus_reply (address (obj s')) INA260_ALERT_LIMIT_REGISTER
                            (wire s')) = 2) by (vm_compute; reflexivity).
  assert (H2 : fst (Wire_read
                      (bus_reply (address (obj s'))
                                 INA260_ALERT_LIMIT_REGISTER (wire s')))
               = u16 0x1234 / 256) by (vm_compute; reflexivity).
  assert (H3 : fst (Wire_read (snd (Wire_read
                      (bus_reply (address (obj s'))
                                 INA260_ALERT_LIMIT_REGISTER (wire s')))))
               = u16 0x1234 mod 256) by (vm_compute; reflexivity).
  split; [exact H1|]. split; [exact H2|]. split; [exact H3|].
  exact (proj2 (proj2 (writeRegister_readRegister_round_trip ILP32
                         INA260_ALERT_LIMIT_REGISTER 0x1234 (Sim.state [])
                         INA260_ALERT_LIMIT_REGISTER s'))
               H1 H2 H3).
Defined.

(** ** Further properties of initialisation and addressing *)

(** X7.  [reset] writes 0x8000 (the [rst] bit alone) to the configuration
register.  [begin] returns true whatever the bus answers, also when the
reset write is not acknowledged; it calls [Wire.begin] only if the static
flag is not yet set, sets the flag, and then makes the write of [reset]; a
second [begin] does not call [Wire.begin] again. *)
Theorem begin_reset_behaviour
  {W : Type} {bus : WireBus W} (s : State W) :
  written (events (reset s)) = [(address (obj s), INA260_CONFIG_REGISTER,
                                 0x8000)]
  /\ value (begin s) = true
  /\ wireInitialized (after (begin s)) = true
  /\ events (begin s)
     = (if wireInitialized s then [] else [EvBegin])
       ++ [EvBeginTransmission (address (obj s));
           EvWrite INA260_CONFIG_REGISTER; EvWrite 0x80; EvWrite 0;
           EvEndTransmission]
  /\ events (begin (after (begin s)))
     = [EvBeginTransmission (address (obj s));
        EvWrite INA260_CONFIG_REGISTER; EvWrite 0x80; EvWrite 0;
        EvEndTransmission].
Proof.
  split; [reflexivity|].
  unfold begin, bind, wire_init_once.
  destruct (wireInitialized s) eqn:E; cbn; rewrite ?E; cbn;
    repeat split; reflexivity.
Qed.

(** X8.  [getAddress] after [setAddress a] returns [a] modulo 256, the
discovery buffer is untouched, and the register accesses that follow go to
that address. *)
Theorem setAddress_getAddress_round_trip
  {W : Type} {bus : WireBus W} (T : Target) (a reg v : Z) (s : State W) :
  let s' := after (setAddress a s) in
  value (getAddress s') = a mod 256
  /\ devices (obj s') = devices (obj s)
  /\ deviceCount (obj s') = deviceCount (obj s)
  /\ events (setAddress a s) = []
  /\ transactions (events (readRegister T reg s'))
     = [TxWrite (a mod 256) [reg]; TxRead (a mod 256) 2]
  /\ written (events (writeRegister reg v s')) = [(a mod 256, reg, u16 v)].
Proof.
  cbv zeta. repeat split.
  - apply readRegister_transactions.
  - apply writeRegister_written.
Qed.

(** X9.  Every bus transfer of every public method other than
[findDevices] addresses the device whose address the object holds when the
method is called. *)
Theorem transfers_go_to_the_set_address
  {W : Type} {bus : WireBus W} (T : Target) (op : Op) (s : State W) :
  Forall (fun t => txn_addr t = address (obj s))
         (transactions (events (exec T op s))).
Proof.
  unfold transactions.
  destruct op; cbn; unfold wire_init_once;
    repeat match goal with
           | |- context [if ?c then _ else _] => destruct c; cbn
           end;
    repeat constructor.
Qed.

(** ** Further properties of the alert configuration *)

(** X10.  An alert-enable method returns the outcome of its last write
only, the one of the Mask/Enable register: the result of the limit setter
is discarded.  The value it writes back keeps every bit of the value read
below the five limit flags (the latch, polarity and conversion-ready
settings among them). *)
Theorem alert_enable_result_and_frame
  {W : Type} {bus : WireBus W} (T : Target)
  (m : AlertMethod) (x : Z) (s : State W) :
  let r0 := readMaskEnableRegister T s in
  let r1 := alert_limit_setter T m x (after r0) in
  let v := alert_select m (value r0) in
  value (alert_enable T m x s)
  = value (writeMaskEnableRegister v (after r1))
  /\ written (events (alert_enable T m x s))
     = [(address (obj s), INA260_ALERT_LIMIT_REGISTER,
         alert_limit_value T m x);
        (address (obj s), INA260_MASK_ENABLE_REGISTER, v)]
  /\ (forall i, 0 <= i < 11 -> Z.testbit v i = Z.testbit (value r0) i)
  /\ (forall f, In f [MaskEnableRegister.len; MaskEnableRegister.apol;
                      MaskEnableRegister.ovf; MaskEnableRegister.cvrf;
                      MaskEnableRegister.aff; MaskEnableRegister.cnvr] ->
                get_field f v = get_field f (value r0)).
Proof.
  cbv zeta.
  pose proof (readRegister_range T INA260_MASK_ENABLE_REGISTER s) as Hr.
  pose proof (readRegister_obj T INA260_MASK_ENABLE_REGISTER s) as [Ho _].
  split.
  { destruct m; cbn [alert_enable alert_limit_setter alert_select];
      unfold enableOverCurrentLimitAlert, enableUnderCurrentLimitAlert,
        enableBusOvertLimitAlert, enableBusUnderLimitAlert,
        enableOverPowerLimitAlert;
      step_bind; reflexivity. }
  split.
  { rewrite alert_enable_events. cbv zeta.
    rewrite written_app by apply readRegister_closed.
    rewrite written_app by apply alert_limit_setter_closed.
    unfold readMaskEnableRegister at 1. rewrite readRegister_written.
    rewrite alert_limit_setter_written.
    unfold writeMaskEnableRegister. rewrite writeRegister_written.
    rewrite alert_limit_setter_obj.
    unfold readMaskEnableRegister. rewrite Ho.
    rewrite u16_small by (apply alert_select_range, Hr). reflexivity. }
  assert (Hbits : forall i, 0 <= i < 11 ->
            Z.testbit (alert_select m (value (readMaskEnableRegister T s))) i
            = Z.testbit (value (readMaskEnableRegister T s)) i).
  { intros i Hi. destruct m; apply select_limit_frame, Hi. }
  split; [exact Hbits|].
  intros f Hf.
  assert (Hok : 0 <= f_off f /\ 0 <= f_width f
                /\ f_off f + f_width f <= 11).
  { cbn in Hf. repeat (destruct Hf as [<-|Hf]; [cbn; lia|]). destruct Hf. }
  apply get_field_ext; try lia.
  intros i Hi. unfold in_field in Hi. apply Hbits. lia.
Qed.

(** ** Further properties of the field accessors *)

Lemma get_field_arith (f : Field) (raw : Z) :
  0 <= f_off f -> 0 <= f_width f ->
  get_field f raw = (raw / 2 ^ f_off f) mod 2 ^ f_width f.
Proof.
  intros Ho Hw. unfold get_field.
  rewrite Z.land_ones, Z.shiftr_div_pow2 by lia. reflexivity.
Qed.

Lemma field_flag_bit (f : Field) (raw : Z) :
  0 <= f_off f -> f_width f = 1 ->
  field_flag f raw = Z.testbit raw (f_off f).
Proof.
  intros Ho Hw. unfold field_flag.
  rewrite get_field_arith by lia. rewrite Hw. change (2 ^ 1) with 2.
  rewrite <- Z.testbit_spec' by lia.
  destruct (Z.testbit raw (f_off f)); reflexivity.
Qed.

Lemma run_setter_written {W : Type} {bus : WireBus W} (T : Target)
  (fs : FieldSetter) (s : State W) :
  written (events (run_setter T fs s))
  = [(address (obj s), setter_register fs,
      set_field (setter_field fs) (setter_argument fs)
                (value (readRegister T (setter_register fs) s)))].
Proof.
  pose proof (readRegister_range T (setter_register fs) s) as Hr.
  pose proof (readRegister_obj T (setter_register fs) s) as [Ho _].
  rewrite run_setter_events. cbv zeta.
  rewrite written_app by apply readRegister_closed.
  rewrite readRegister_written, writeRegister_written, Ho.
  rewrite u16_small
    by (apply set_field_range; [apply setter_field_ok | exact Hr]).
  reflexivity.
Qed.

Lemma Mode_round_trip (m : Mode) : Mode_of_Z (Mode_to_Z m) = m.
Proof. destruct m; reflexivity. Qed.

Lemma ConversionTime_round_trip (t : ConversionTime) :
  ConversionTime_of_Z (ConversionTime_to_Z t) = t.
Proof. destruct t; reflexivity. Qed.

Lemma AveragingCount_round_trip (c : AveragingCount) :
  AveragingCount_of_Z (AveragingCount_to_Z c) = c.
Proof. destruct c; reflexivity. Qed.

Lemma three_bit_cases (z : Z) :
  0 <= z < 8 ->
  z = 0 \/ z = 1 \/ z = 2 \/ z = 3 \/ z = 4 \/ z = 5 \/ z = 6 \/ z = 7.
Proof. lia. Qed.

(** X11.  What a single-field setter writes is what the matching getter
decodes: if a later read of the register returns the value the setter wrote
back, the getter returns the argument of the setter. *)
Theorem setter_getter_round_trip
  {W : Type} {bus : WireBus W} (T : Target)
  (fs : FieldSetter) (g : Op) (v : Z) (s s' : State W) :
  setter_getter fs = Some g ->
  written (events (run_setter T fs s))
  = [(address (obj s), setter_register fs, v)] ->
  value (readRegister T (setter_register fs) s') = v ->
  value (exec T g s') = setter_result fs.
Proof.
  intros Hg Hw Hv.
  assert (E : v = set_field (setter_field fs) (setter_argument fs)
                    (value (readRegister T (setter_register fs) s)))
    by (rewrite run_setter_written in Hw; congruence).
  rewrite E in Hv. clear Hw E v.
  pose proof (get_set_same (setter_field fs) (setter_argument fs)
                (value (readRegister T (setter_register fs) s))) as Hf.
  pose proof (setter_field_ok fs) as (Hok1 & Hok2 & _).
  specialize (Hf Hok1 ltac:(lia)). rewrite setter_argument_fits in Hf.
  destruct fs; cbn [setter_getter] in Hg; try discriminate Hg;
    injection Hg as <-;
    unfold setter_register, setter_field, setter_argument, setter_result
      in *;
    unfold_accessors; rewrite Hv.
  all: try (unfold field_flag); rewrite Hf;
    first [ rewrite Mode_round_trip
          | rewrite ConversionTime_round_trip
          | rewrite AveragingCount_round_trip
          | idtac ];
    try reflexivity.
  all: destruct polarity || destruct latch; reflexivity.
Qed.

Lemma setter_getter_round_trip_witness :
  let s := Sim.state [(INA260_CONFIG_REGISTER, 0x6127)] in
  let fs := SetAveragingCount AVG_64 in
  let s' := after (run_setter ILP32 fs s) in
  setter_getter fs = Some OpGetAveragingCount
  /\ written (events (run_setter ILP32 fs s))
     = [(address (obj s), setter_register fs, 0x6727)]
  /\ value (readRegister ILP32 (setter_register fs) s') = 0x6727
  /\ value (exec ILP32 OpGetAveragingCount s') = setter_result fs.
Proof.
  cbv zeta.
  set (s := Sim.state [(INA260_CONFIG_REGISTER, 0x6127)]).
  set (fs := SetAveragingCount AVG_64).
  set (s' := after (run_setter ILP32 fs s)).
  assert (H1 : written (events (run_setter ILP32 fs s))
               = [(address (obj s), setter_register fs, 0x6727)])
    by (vm_compute; reflexivity).
  assert (H2 : value (readRegister ILP32 (setter_register fs) s') = 0x6727)
    by (vm_compute; reflexivity).
  split; [reflexivity|]. split; [exact H1|]. split; [exact H2|].
  exact (setter_getter_round_trip ILP32 fs OpGetAveragingCount 0x6727 s s'
           eq_refl H1 H2).
Defined.

(** X12.  The getters of the configuration register return the enumerator
whose value is the three-bit field of the value read: bits 0-2 for the
mode, 3-5 for the current conversion time, 6-8 for the bus voltage
conversion time and 9-11 for the averaging count. *)
Theorem configuration_getters_decode
  {W : Type} {bus : WireBus W} (T : Target) (s : State W) :
  let raw := value (readRegister T INA260_CONFIG_REGISTER s) in
  Mode_to_Z (value (getMode T s)) = raw mod 8
  /\ ConversionTime_to_Z (value (getCurrentConversionTime T s))
     = (raw / 8) mod 8
  /\ ConversionTime_to_Z (value (getVoltageConversionTime T s))
     = (raw / 64) mod 8
  /\ AveragingCount_to_Z (value (getAveragingCount T s))
     = (raw / 512) mod 8.
Proof.
  cbv zeta.
  unfold getMode, getCurrentConversionTime, getVoltageConversionTime,
    getAveragingCount, readConfigurationRegister.
  step_bind. cbn [ret value].
  set (raw := value (readRegister T INA260_CONFIG_REGISTER s)).
  rewrite !get_field_arith by (cbn; lia).
  cbn [ConfigurationRegister.mode ConfigurationRegister.ishct
       ConfigurationRegister.vbusct ConfigurationRegister.avg
       f_off f_width].
  change (2 ^ 0) with 1. change (2 ^ 3) with 8. change (2 ^ 6) with 64.
  change (2 ^ 9) with 512. rewrite Z.div_1_r.
  repeat split;
    match goal with
    | |- _ (_ (?z mod 8)) = _ =>
        destruct (three_bit_cases (z mod 8)
                    (Z.mod_pos_bound z 8 ltac:(lia)))
          as [E|[E|[E|[E|[E|[E|[E|E]]]]]]];
        rewrite E; reflexivity
    end.
Qed.

(** X13.  The flag getters return one bit of the Mask/Enable value read:
bit 0 for the alert latch, bit 1 for the alert polarity, bit 2 for the math
overflow, bit 3 for the conversion-ready flag and bit 4 for the alert
function flag. *)
Theorem flag_getters_read_one_bit
  {W : Type} {bus : WireBus W} (T : Target) (s : State W) :
  let raw := value (readRegister T INA260_MASK_ENABLE_REGISTER s) in
  value (isAlertLatchSet T s) = Z.testbit raw 0
  /\ value (isAlertPolaritySet T s) = Z.testbit raw 1
  /\ value (isMathOverFlow T s) = Z.testbit raw 2
  /\ value (isConversionRready T s) = Z.testbit raw 3
  /\ value (isAlert T s) = Z.testbit raw 4.
Proof.
  cbv zeta.
  unfold isAlertLatchSet, isAlertPolaritySet, isMathOverFlow,
    isConversionRready, isAlert, readMaskEnableRegister.
  step_bind. cbn [ret value].
  repeat split; apply field_flag_bit; cbn; lia.
Qed.

(** ** Further properties of the identification registers *)

(** X14.  [readManufactuerId] builds its string from the two bytes of the
register with a terminating NUL, so the string stops at the first zero
byte: it is empty when the high byte is zero (whatever the low byte, and
in particular after a failed read), one character long when only the low
byte is zero, and the two characters otherwise. *)
Theorem readManufactuerId_stops_at_zero_byte
  {W : Type} {bus : WireBus W} (T : Target) (s : State W) :
  let raw := value (readRegister T INA260_MANUFACTURER_ID_REGISTER s) in
  let hi := ascii_of_N (Z.to_N (raw / 256)) in
  let lo := ascii_of_N (Z.to_N (raw mod 256)) in
  value (readManufactuerId T s)
  = if raw / 256 =? 0 then EmptyString
    else if raw mod 256 =? 0 then String hi EmptyString
         else String hi (String lo EmptyString).
Proof.
  cbv zeta.
  pose proof (readRegister_range T INA260_MANUFACTURER_ID_REGISTER s) as Hr.
  unfold readManufactuerId. step_bind. cbn [ret value].
  set (raw := value (readRegister T INA260_MANUFACTURER_ID_REGISTER s)) in *.
  destruct (high_low_bytes raw) as [Hh Hl].
  rewrite u16_small in Hh, Hl by exact Hr. rewrite Hh, Hl.
  cbn [c_string]. change (0 =? 0) with true. cbv iota.
  destruct (raw / 256 =? 0); destruct (raw mod 256 =? 0); reflexivity.
Qed.

(** X15.  The two fields of the die ID split the value read without loss:
the revision is its low four bits, the device number its high twelve, and
sixteen times the device number plus the revision is the value. *)
Theorem readDieId_fields
  {W : Type} {bus : WireBus W} (T : Target) (s : State W) :
  let v := value (readDieId T s) in
  get_field DieIdRegister.rid v = v mod 16
  /\ get_field DieIdRegister.did v = v / 16
  /\ get_field DieIdRegister.did v * 16 + get_field DieIdRegister.rid v = v.
Proof.
  cbv zeta. unfold readDieId.
  pose proof (readRegister_range T INA260_DIE_ID_REGISTER s) as Hr.
  set (v := value (readRegister T INA260_DIE_ID_REGISTER s)) in *.
  rewrite !get_field_arith by (cbn; lia).
  cbn [DieIdRegister.rid DieIdRegister.did f_off f_width].
  change (2 ^ 0) with 1. change (2 ^ 4) with 16. change (2 ^ 12) with 4096.
  rewrite Z.div_1_r.
  assert (Hd : 0 <= v / 16 < 4096).
  { split; [apply Z.div_pos; lia|apply Z.div_lt_upper_bound; lia]. }
  rewrite (Z.mod_small (v / 16)) by exact Hd.
  pose proof (Z.div_mod v 16 ltac:(lia)).
  repeat split; lia.
Qed.

(** ** Further properties of the device discovery *)

Lemma Returned_inj {A : Type} (a b : A) : Returned a = Returned b -> a = b.
Proof. intro H. injection H as H. exact H. Qed.

Lemma bus_scan_sorted {W : Type} {bus : WireBus W} (n : nat) :
  forall a (w : W), StronglySorted Z.lt (fst (bus_scan n a w)).
Proof.
  induction n as [|k IH]; intros a w; cbn [bus_scan fst].
  - constructor.
  - destruct (fst (Wire_endTransmission (Wire_beginTransmission a w)) =? 0);
      [|apply IH].
    constructor; [apply IH|].
    apply Forall_forall. intros x Hx. apply bus_scan_range in Hx. lia.
Qed.

Lemma findDevices_spec {W : Type} {bus : WireBus W} (s : State W) :
  (in_bounds (fst (bus_scan 126 1 (wire s))) (obj s) ->
   findDevices s
   = (Returned (mkState (record_all (fst (bus_scan 126 1 (wire s))) (obj s))
                        (wireInitialized s)
                        (snd (bus_scan 126 1 (wire s)))),
      probes (addresses_from 126 1)))
  /\ (~ in_bounds (fst (bus_scan 126 1 (wire s))) (obj s) ->
      fst (findDevices s) = Undefined).
Proof.
  exact (findDevices_from_spec 126 1 256 s ltac:(lia) ltac:(lia) ltac:(lia)).
Qed.

Lemma findDevices_returned {W : Type} {bus : WireBus W} (s s' : State W) :
  fst (findDevices s) = Returned s' ->
  s' = mkState (record_all (fst (bus_scan 126 1 (wire s))) (obj s))
               (wireInitialized s) (snd (bus_scan 126 1 (wire s)))
  /\ in_bounds (fst (bus_scan 126 1 (wire s))) (obj s)
  /\ snd (findDevices s) = probes (addresses_from 126 1).
Proof.
  intro Hret. destruct (findDevices_spec s) as [Hin Hout].
  destruct (in_bounds_dec (fst (bus_scan 126 1 (wire s))) (obj s))
    as [Hb|Hb].
  - rewrite (Hin Hb) in Hret |- *.
    apply Returned_inj in Hret. split; [symmetry; exact Hret|].
    split; [exact Hb|reflexivity].
  - rewrite (Hout Hb) in Hret. discriminate Hret.
Qed.

(** X16.  A scan that returns has appended to the discovery buffer: the
object is the old one with the acknowledging addresses recorded in turn,
[deviceCount] has grown by their number (it is never reset), the address of
the driver is unchanged, and the recorded addresses lie between 1 and 126
in strictly increasing order. *)
Theorem findDevices_appends
  {W : Type} {bus : WireBus W} (s s' : State W) :
  fst (findDevices s) = Returned s' ->
  let acks := fst (bus_scan 126 1 (wire s)) in
  obj s' = record_all acks (obj s)
  /\ deviceCount (obj s')
     = deviceCount (obj s) + Z.of_nat (List.length acks)
  /\ address (obj s') = address (obj s)
  /\ wireInitialized s' = wireInitialized s
  /\ snd (findDevices s) = probes (addresses_from 126 1)
  /\ (forall x, In x acks -> 1 <= x <= 126)
  /\ StronglySorted Z.lt acks.
Proof.
  intro Hret. cbv zeta.
  destruct (findDevices_returned s s' Hret) as (E & Hb & Hev).
  set (acks := fst (bus_scan 126 1 (wire s))) in *.
  rewrite E. cbn [obj wireInitialized].
  split; [reflexivity|].
  split; [apply record_all_count|].
  split; [apply record_all_address|].
  split; [reflexivity|]. split; [exact Hev|].
  split; [|apply bus_scan_sorted].
  intros x Hx. apply bus_scan_range in Hx. lia.
Qed.

Lemma findDevices_appends_witness :
  let s := mkState (mkINA260 0x40 (0x40 :: repeat 0 15) 1) true
                   (Sim.bus_with [0x40; 0x45] 0x40 []) in
  let s' := mkState (mkINA260 0x40 (0x40 :: 0x40 :: 0x45 :: repeat 0 13) 3)
                    true
                    (snd (bus_scan 126 1 (wire s))) in
  fst (findDevices s) = Returned s'
  /\ deviceCount (obj s')
     = deviceCount (obj s)
       + Z.of_nat (List.length (fst (bus_scan 126 1 (wire s)))).
Proof.
  cbv zeta.
  assert (H : fst (findDevices
                     (mkState (mkINA260 0x40 (0x40 :: repeat 0 15) 1) true
                              (Sim.bus_with [0x40; 0x45] 0x40 [])))
              = Returned
                  (mkState
                     (mkINA260 0x40 (0x40 :: 0x40 :: 0x45 :: repeat 0 13) 3)
                     true
                     (snd (bus_scan 126 1
                             (wire (mkState
                                      (mkINA260 0x40 (0x40 :: repeat 0 15) 1)
                                      true
                                      (Sim.bus_with [0x40; 0x45] 0x40
                                                    [])))))))
    by (vm_compute; reflexivity).
  split; [exact H|].
  exact (proj1 (proj2 (findDevices_appends _ _ H))).
Defined.

(** X17.  A scan on which no address acknowledges makes no store: it is
defined and leaves the object untouched whatever [deviceCount] holds, also
a negative value or one beyond the array. *)
Theorem findDevices_on_a_silent_bus
  {W : Type} {bus : WireBus W} (s : State W) :
  fst (bus_scan 126 1 (wire s)) = [] ->
  findDevices s
  = (Returned (mkState (obj s) (wireInitialized s)
                       (snd (bus_scan 126 1 (wire s)))),
     probes (addresses_from 126 1)).
Proof.
  intro Hs. destruct (findDevices_spec s) as [Hin _].
  rewrite Hin by (left; exact Hs).
  rewrite Hs. reflexivity.
Qed.

Lemma findDevices_on_a_silent_bus_witness :
  let s := mkState (mkINA260 0x40 (repeat 0 16) (-7)) false
                   (Sim.bus_with [] 0x40 []) in
  fst (bus_scan 126 1 (wire s)) = []
  /\ findDevices s
     = (Returned (mkState (obj s) (wireInitialized s)
                          (snd (bus_scan 126 1 (wire s)))),
        probes (addresses_from 126 1)).
Proof.
  cbv zeta.
  assert (H : fst (bus_scan 126 1
                     (wire (mkState (mkINA260 0x40 (repeat 0 16) (-7)) false
                                    (Sim.bus_with [] 0x40 []))))
              = []) by (vm_compute; reflexivity).
  split; [exact H|].
  exact (findDevices_on_a_silent_bus _ H).
Defined.

(** X18.  Scanning twice records every device twice.  When the same
addresses acknowledge on a second scan, that scan stores outside the array
exactly when [deviceCount] plus twice their number exceeds 16 (with nine
devices on the bus, for instance, starting from an empty buffer), and
otherwise ends with [deviceCount] grown by twice their number. *)
Theorem findDevices_twice
  {W : Type} {bus : WireBus W} (s s1 : State W) :
  let acks := fst (bus_scan 126 1 (wire s)) in
  let n := Z.of_nat (List.length acks) in
  fst (findDevices s) = Returned s1 ->
  fst (bus_scan 126 1 (wire s1)) = acks ->
  acks <> [] ->
  (fst (findDevices s1) = Undefined <-> 16 < deviceCount (obj s) + 2 * n)
  /\ (forall s2, fst (findDevices s1) = Returned s2 ->
                 obj s2 = record_all acks (record_all acks (obj s))
                 /\ deviceCount (obj s2) = deviceCount (obj s) + 2 * n).
Proof.
  cbv zeta. intros H1 Hsame Hne.
  destruct (findDevices_returned s s1 H1) as (E & Hb & _).
  destruct (findDevices_spec s1) as [Hin1 Hout1].
  rewrite Hsame in Hin1, Hout1.
  set (acks := fst (bus_scan 126 1 (wire s))) in *.
  assert (Ho : obj s1 = record_all acks (obj s)) by (rewrite E; reflexivity).
  rewrite Ho in Hin1, Hout1. clear E.
  destruct Hb as [Hb|[Hb1 Hb2]]; [contradiction|].
  pose proof (record_all_count acks (obj s)) as Hc.
  destruct (in_bounds_dec acks (record_all acks (obj s))) as [Hb'|Hb'].
  - rewrite (Hin1 Hb'). cbn [fst].
    destruct Hb' as [Hb'|[Hb1' Hb2']]; [contradiction|].
    split.
    + split; [intro H; discriminate H|]. intro H. exfalso. lia.
    + intros s2 E. apply Returned_inj in E. rewrite <- E. cbn [obj].
      split; [reflexivity|]. rewrite record_all_count. lia.
  - rewrite (Hout1 Hb'). split.
    + split; [intros _|reflexivity].
      destruct (Z_lt_dec 16 (deviceCount (obj s)
                             + 2 * Z.of_nat (List.length acks)));
        [assumption|].
      exfalso. apply Hb'. right. lia.
    + intros s2 E. discriminate E.
Qed.

Lemma findDevices_twice_witness :
  let s := mkState (Sim.object 0x40) false
                   (Sim.bus_with [0x40; 0x41; 0x42; 0x43; 0x44; 0x45; 0x46;
                                  0x47; 0x48] 0x40 []) in
  exists s1 : State Sim.Bus,
    fst (findDevices s) = Returned s1
    /\ fst (bus_scan 126 1 (wire s1)) = fst (bus_scan 126 1 (wire s))
    /\ fst (bus_scan 126 1 (wire s)) <> []
    /\ fst (findDevices s1) = Undefined.
Proof.
  cbv zeta.
  set (s := mkState (Sim.object 0x40) false
                    (Sim.bus_with [0x40; 0x41; 0x42; 0x43; 0x44; 0x45; 0x46;
                                   0x47; 0x48] 0x40 [])).
  exists (mkState (record_all (fst (bus_scan 126 1 (wire s))) (obj s))
                  (wireInitialized s) (snd (bus_scan 126 1 (wire s)))).
  assert (H1 : fst (findDevices s)
               = Returned
                   (mkState (record_all (fst (bus_scan 126 1 (wire s)))
                                        (obj s))
                            (wireInitialized s)
                            (snd (bus_scan 126 1 (wire s)))))
    by (vm_compute; reflexivity).
  assert (H2 : fst (bus_scan 126 1
                      (wire (mkState
                               (record_all (fst (bus_scan 126 1 (wire s)))
                                           (obj s))
                               (wireInitialized s)
                               (snd (bus_scan 126 1 (wire s))))))
               = fst (bus_scan 126 1 (wire s)))
    by (vm_compute; reflexivity).
  assert (H3 : fst (bus_scan 126 1 (wire s)) <> [])
    by (vm_compute; discriminate).
  split; [exact H1|]. split; [exact H2|]. split; [exact H3|].
  apply (proj1 (findDevices_twice s _ H1 H2 H3)).
  vm_compute. reflexivity.
Defined.

(** ** Setting a limit and reading it back *)




Lemma readAlertLimitRegister_value_witness :
  let s := Sim.state [(INA260_MASK_ENABLE_REGISTER, 0x8000);
                      (INA260_ALERT_LIMIT_REGISTER, 2400)] in
  get_field MaskEnableRegister.pol (value (readMaskEnableRegister ILP32 s))
  = 0
  /\ SFvalue (value (readAlertLimitRegister ILP32 s))
             (inject_Z
                (value (readRegister ILP32 INA260_ALERT_LIMIT_REGISTER
                          (after (readMaskEnableRegister ILP32 s))))
              * (5 # 4)).
Proof.
  cbv zeta.
  set (s := Sim.state [(INA260_MASK_ENABLE_REGISTER, 0x8000);
                       (INA260_ALERT_LIMIT_REGISTER, 2400)]).
  assert (H : get_field MaskEnableRegister.pol
                (value (readMaskEnableRegister ILP32 s)) = 0)
    by (vm_compute; reflexivity).
  split; [exact H|].
  exact (proj1 (readAlertLimitRegister_value ILP32 s) H).
Defined.

Lemma readCurrent_is_never_negative_witness :
  let s := Sim.state [(INA260_CURRENT_REGISTER, 0xFFFF)] in
  32768 <= value (readRegister ILP32 INA260_CURRENT_REGISTER s)
  /\ exists q : Q,
       SF2Q (value (readCurrent ILP32 s)) = Some q
       /\ (40960 # 1 <= q)%Q.
Proof.
  cbv zeta.
  set (s := Sim.state [(INA260_CURRENT_REGISTER, 0xFFFF)]).
  assert (H : 32768 <= value (readRegister ILP32 INA260_CURRENT_REGISTER s))
    by (vm_compute; discriminate).
  split; [exact H|].
  destruct (readCurrent_is_never_negative ILP32 s) as (q & E & _ & _ & Hq).
  exists q. split; [exact E|]. exact (Hq H).
Defined.

(** ** The register map *)

Lemma Some_inj {A : Type} (a b : A) : Some a = Some b -> a = b.
Proof. intro H. injection H as H. exact H. Qed.

(** X20.  Each read accessor reads the registers of the chip's register
map, and only reads: the configuration getters read register 0x00,
[readCurrent] 0x01, [readBusVoltage] 0x02, [readPower] 0x03, the flag
getters 0x06, [readAlertLimitRegister] 0x06 and then 0x07,
[readManufactuerId] 0xFE and [readDieId] 0xFF, each read being the write of
the register pointer followed by a request for two bytes; no read accessor
writes a register. *)
Theorem read_accessors_follow_the_register_map
  {W : Type} {bus : WireBus W} (T : Target)
  (op : Op) (regs : list Z) (s : State W) :
  read_registers op = Some regs ->
  transactions (events (exec T op s))
  = flat_map (fun r => [TxWrite (address (obj s)) [r];
                        TxRead (address (obj s)) 2]) regs
  /\ written (events (exec T op s)) = [].
Proof.
  intro H.
  destruct op; cbn [read_registers] in H; try discriminate H;
    apply Some_inj in H; subst regs;
    unfold written, transactions; cbn;
    repeat match goal with
           | |- context [if ?c then _ else _] => destruct c; cbn
           end;
    split; reflexivity.
Qed.

Lemma read_accessors_follow_the_register_map_witness :
  read_registers OpReadAlertLimitRegister
  = Some [INA260_MASK_ENABLE_REGISTER; INA260_ALERT_LIMIT_REGISTER]
  /\ transactions (events (exec AVR8 OpReadAlertLimitRegister Sim.silent))
     = flat_map (fun r => [TxWrite (address (obj Sim.silent)) [r];
                           TxRead (address (obj Sim.silent)) 2])
                [INA260_MASK_ENABLE_REGISTER; INA260_ALERT_LIMIT_REGISTER].
Proof.
  split; [reflexivity|].
  exact (proj1 (read_accessors_follow_the_register_map AVR8
                  OpReadAlertLimitRegister
                  [INA260_MASK_ENABLE_REGISTER; INA260_ALERT_LIMIT_REGISTER]
                  Sim.silent eq_refl)).
Defined.
